(** * libgpiod-node-wrapper: a shallow embedding of the native classes

  The development follows the four wrapped classes of [src/native]:
  [Chip] (chip.cpp), [LineConfig] (line_config.cpp), [LineRequest]
  (line_request.cpp) and [Line] (line.cpp).

  - JavaScript arguments ([Napi::CallbackInfo]) are lists of [Js.Value];
    a thrown JavaScript exception is a [Throw] completion.
  - libgpiod value objects ([line_settings], [line_config]) are plain
    data; [std::map] is an association list kept in ascending key order,
    so that [begin()] is its head.
  - Calls that reach the kernel (chip info, line requests, reading and
    writing values, waiting for edge events) are answered by the device
    object itself: every such object carries the answers of the device,
    and every theorem quantifies over them. *)

From Stdlib Require Import List String Ascii Bool ZArith NArith Lia.
Import ListNotations.

Local Open Scope string_scope.
Local Open Scope N_scope.

(* ===================================================================== *)
(** ** JavaScript values and completions *)
(* ===================================================================== *)

Module Js.

(** The classes registered by [InitAll]; [OtherClass] stands for every
    object that is an instance of none of them. *)
Inductive Class := ChipClass | LineClass | LineConfigClass | LineRequestClass | OtherClass.

Definition class_eqb (a b : Class) : bool :=
  match a, b with
  | ChipClass, ChipClass | LineClass, LineClass
  | LineConfigClass, LineConfigClass | LineRequestClass, LineRequestClass
  | OtherClass, OtherClass => true
  | _, _ => false
  end.

(** Numbers are the integral doubles; [Object cls ref] is a wrapper
    object of class [cls] around the native object at address [ref]. *)
#[local] Unset Elimination Schemes.
Inductive Value :=
| Undefined
| Null
| Boolean (b : bool)
| Number (z : Z)
| String (s : string)
| Function (id : nat)
| Array (elems : list Value)
| Object (cls : Class) (ref : nat)
| Literal (props : list (string * Value)).
#[local] Set Elimination Schemes.

Definition IsObject (v : Value) : bool :=
  match v with
  | Object _ _ | Literal _ | Array _ | Function _ => true
  | _ => false
  end.

Definition InstanceOf (v : Value) (c : Class) : bool :=
  match v with
  | Object cls _ => class_eqb cls c
  | _ => false
  end.

(** [Napi::Number::Uint32Value] and [Int32Value] on an integral number:
    reduction modulo 2^32. *)
Definition Uint32Value (z : Z) : N := Z.to_N (z mod 4294967296).
Definition Int32Value (z : Z) : Z := ((z + 2147483648) mod 4294967296 - 2147483648)%Z.

(** [Napi::Number::Int64Value] on an integral number: a number outside
    the 64-bit range gives the nearest bound. *)
Definition Int64Value (z : Z) : Z :=
  if (z <? -9223372036854775808)%Z then (-9223372036854775808)%Z
  else if (9223372036854775807 <? z)%Z then 9223372036854775807%Z
  else z.

(** [Napi::TypeError] and [Napi::Error], with their message. *)
Inductive Exception :=
| TypeError (msg : string)
| Error (msg : string).

(** Why a call never returns to JavaScript at all. *)
Inductive Fatal :=
| NullDereference     (* a member call through an empty shared_ptr *)
| StdTerminate        (* a joinable std::thread assigned or destroyed *)
| UseAfterFree.       (* an object that has been deleted is used or deleted again *)

Inductive Completion (A : Type) :=
| Return (a : A)
| Throw (e : Exception)
| Abort (f : Fatal).

Arguments Return {A} a.
Arguments Throw {A} e.
Arguments Abort {A} f.

End Js.

Import Js.

(** The error taxonomy of the specification, read off the exceptions the
  native code throws: a [TypeError] reports malformed caller input; an
  [Error] carrying one of the three fixed lifecycle messages reports a
  wrong state; every other [Error] is one of the [Failed to ...: what()]
  wrappers around an exception of the device library. *)
Module Taxonomy.

Inductive ErrorKind := ValidationError | StateError | DeviceError.

Definition is_state_message (m : string) : bool :=
  String.eqb m "Chip is closed"
  || String.eqb m "Line is not exported"
  || String.eqb m "Line request is not active".

Definition classify (e : Exception) : ErrorKind :=
  match e with
  | TypeError _ => ValidationError
  | Error m => if is_state_message m then StateError else DeviceError
  end.

Definition fails_with {A} (c : Completion A) (k : ErrorKind) : Prop :=
  exists e, c = Throw e /\ classify e = k.

End Taxonomy.

(* ===================================================================== *)
(** ** std::map<unsigned int, V> *)
(* ===================================================================== *)

Module OffsetMap.
Section Defs.
Context {V : Type}.

(** Entries in ascending key order, as a [std::map] iterates them. *)
Definition t := list (N * V).

Definition empty : t := [].


Fixpoint find (k : N) (m : t) : option V :=
  match m with
  | [] => None
  | (k', v) :: rest => if k =? k' then Some v else find k rest
  end.

(** [m[k] = v]: overwrite the entry of [k] or add it at its place. *)
Fixpoint insert (k : N) (v : V) (m : t) : t :=
  match m with
  | [] => [(k, v)]
  | (k', v') :: rest =>
      if k <? k' then (k, v) :: m
      else if k =? k' then (k, v) :: rest
      else (k', v') :: insert k v rest
  end.

(** [m.begin()]: the first entry in iteration order. *)
Definition begin (m : t) : option (N * V) :=
  match m with [] => None | e :: _ => Some e end.

Fixpoint sorted_from (lo : N) (m : t) : Prop :=
  match m with
  | [] => True
  | (k, _) :: rest => lo < k /\ sorted_from k rest
  end.

Definition sorted (m : t) : Prop :=
  match m with
  | [] => True
  | (k, _) :: rest => sorted_from k rest
  end.

End Defs.
Arguments t V : clear implicits.
End OffsetMap.

(* ===================================================================== *)
(** ** libgpiod value objects and device objects *)
(* ===================================================================== *)

Module Gpiod.

Inductive direction := DIR_AS_IS | INPUT | OUTPUT.
Inductive edge := NONE | RISING | FALLING | BOTH.
Inductive bias := BIAS_AS_IS | UNKNOWN | DISABLED | PULL_UP | PULL_DOWN.
Inductive drive := PUSH_PULL | OPEN_DRAIN | OPEN_SOURCE.
Inductive value := INACTIVE | ACTIVE.
Inductive event_type := RISING_EDGE | FALLING_EDGE.

(** [gpiod::line_settings]. *)
Record line_settings := {
  ls_direction : direction;
  ls_edge_detection : edge;
  ls_bias : bias;
  ls_drive : drive;
  ls_active_low : bool;
  ls_debounce_period : N;       (* microseconds *)
  ls_output_value : value
}.

(** A default-constructed [gpiod::line_settings]. *)
Definition default_settings : line_settings :=
  {| ls_direction := DIR_AS_IS; ls_edge_detection := NONE; ls_bias := BIAS_AS_IS;
     ls_drive := PUSH_PULL; ls_active_low := false; ls_debounce_period := 0;
     ls_output_value := INACTIVE |}.

Definition set_direction (d : direction) (s : line_settings) : line_settings :=
  {| ls_direction := d; ls_edge_detection := ls_edge_detection s; ls_bias := ls_bias s;
     ls_drive := ls_drive s; ls_active_low := ls_active_low s;
     ls_debounce_period := ls_debounce_period s; ls_output_value := ls_output_value s |}.

Definition set_edge_detection (e : edge) (s : line_settings) : line_settings :=
  {| ls_direction := ls_direction s; ls_edge_detection := e; ls_bias := ls_bias s;
     ls_drive := ls_drive s; ls_active_low := ls_active_low s;
     ls_debounce_period := ls_debounce_period s; ls_output_value := ls_output_value s |}.

Definition with_bias (b : bias) (s : line_settings) : line_settings :=
  {| ls_direction := ls_direction s; ls_edge_detection := ls_edge_detection s; ls_bias := b;
     ls_drive := ls_drive s; ls_active_low := ls_active_low s;
     ls_debounce_period := ls_debounce_period s; ls_output_value := ls_output_value s |}.

(** [line_settings::set_bias].  The library stores the values as-is,
    disabled, pull-up and pull-down; given any other value it stores as-is
    and fails, and the call throws.  The result is what is thrown, if
    anything, and the settings the call leaves. *)
Definition set_bias (b : bias) (s : line_settings) : option string * line_settings :=
  match b with
  | UNKNOWN => (Some "unable to set property", with_bias BIAS_AS_IS s)
  | _ => (None, with_bias b s)
  end.

Definition set_drive (d : drive) (s : line_settings) : line_settings :=
  {| ls_direction := ls_direction s; ls_edge_detection := ls_edge_detection s; ls_bias := ls_bias s;
     ls_drive := d; ls_active_low := ls_active_low s;
     ls_debounce_period := ls_debounce_period s; ls_output_value := ls_output_value s |}.

Definition set_active_low (a : bool) (s : line_settings) : line_settings :=
  {| ls_direction := ls_direction s; ls_edge_detection := ls_edge_detection s; ls_bias := ls_bias s;
     ls_drive := ls_drive s; ls_active_low := a;
     ls_debounce_period := ls_debounce_period s; ls_output_value := ls_output_value s |}.

Definition set_debounce_period (p : N) (s : line_settings) : line_settings :=
  {| ls_direction := ls_direction s; ls_edge_detection := ls_edge_detection s; ls_bias := ls_bias s;
     ls_drive := ls_drive s; ls_active_low := ls_active_low s;
     ls_debounce_period := p; ls_output_value := ls_output_value s |}.

Definition set_output_value (v : value) (s : line_settings) : line_settings :=
  {| ls_direction := ls_direction s; ls_edge_detection := ls_edge_detection s; ls_bias := ls_bias s;
     ls_drive := ls_drive s; ls_active_low := ls_active_low s;
     ls_debounce_period := ls_debounce_period s; ls_output_value := v |}.

(** [gpiod::line_config]: what [get_line_settings()] returns, a
    [std::map<line::offset, line_settings>]. *)
Definition line_config := OffsetMap.t line_settings.

(** [line_config::add_line_settings(offset, settings)] stores a copy of
    [settings] for [offset], replacing what was there.  The library
    refuses to go beyond 64 lines in one configuration; the configurations
    modelled here stay below that. *)
Definition config_add_line_settings (o : N) (s : line_settings) (c : line_config) : line_config :=
  OffsetMap.insert o s c.

(** What a call into the device library gives back: the [what()] of the
    exception it throws, or its value. *)
Definition result (A : Type) := (string + A)%type.

(** [gpiod::request_builder]: the consumer and line configuration that
    [do_request] submits, with the calls that built them, oldest first. *)
Inductive builder_call :=
| set_consumer (name : string)
| set_line_config (c : line_config)
| add_line_settings (o : N) (s : line_settings).

Record request_builder := {
  rb_consumer : string;
  rb_config : line_config;
  rb_calls : list builder_call
}.

Definition prepare_request : request_builder :=
  {| rb_consumer := ""; rb_config := OffsetMap.empty; rb_calls := [] |}.

Definition builder_set_consumer (name : string) (b : request_builder) : request_builder :=
  {| rb_consumer := name; rb_config := rb_config b;
     rb_calls := rb_calls b ++ [set_consumer name] |}.

Definition builder_set_line_config (c : line_config) (b : request_builder) : request_builder :=
  {| rb_consumer := rb_consumer b; rb_config := c;
     rb_calls := rb_calls b ++ [set_line_config c] |}.

Definition builder_add_line_settings (o : N) (s : line_settings) (b : request_builder)
  : request_builder :=
  {| rb_consumer := rb_consumer b; rb_config := config_add_line_settings o s (rb_config b);
     rb_calls := rb_calls b ++ [add_line_settings o s] |}.

(** [gpiod::line_request]: the lines granted with their settings, and
    the device's answers to reads and writes. *)
Record line_request := {
  lr_granted : line_config;
  lr_get_value : N -> result value;
  lr_set_value : N -> value -> result unit
}.

Record chip_info := {
  ci_name : string;
  ci_label : string;
  ci_num_lines : N
}.

Record line_info := {
  li_name : string;
  li_used : bool;
  li_direction : direction;
  li_active_low : bool;
  li_consumer : string
}.

(** [gpiod::chip]: an open chip with the device's answers. *)
Record chip := {
  ch_get_info : result chip_info;
  ch_get_line_info : N -> result line_info;
  ch_do_request : request_builder -> result line_request
}.

End Gpiod.

(* ===================================================================== *)
(** ** LineConfig (line_config.cpp) *)
(* ===================================================================== *)

Module LineConfig.
Import Gpiod.

(** The members of the class.  [settings_map_] holds a shared pointer per
    offset; no pointer is handed out beyond a setter's own body, so the
    pointee is stored by value and a setter writes its change back. *)
Record t := {
  config_ : line_config;
  settings_map_ : OffsetMap.t line_settings;
  current_offset_ : N
}.

(** The constructor: an empty [gpiod::line_config], an empty map, and the
    default member initializer [current_offset_ = 0]. *)
Definition new : t :=
  {| config_ := OffsetMap.empty; settings_map_ := OffsetMap.empty; current_offset_ := 0 |}.

Definition with_current_offset (o : N) (c : t) : t :=
  {| config_ := config_ c; settings_map_ := settings_map_ c; current_offset_ := o |}.

(** [settings_map_[current_offset_] = s] followed by
    [config_->add_line_settings(current_offset_, s)]. *)
Definition store_settings (s : line_settings) (c : t) : t :=
  {| config_ := config_add_line_settings (current_offset_ c) s (config_ c);
     settings_map_ := OffsetMap.insert (current_offset_ c) s (settings_map_ c);
     current_offset_ := current_offset_ c |}.

(** [*settings = s] through the pointer [EnsureSettingsForCurrentOffset]
    returned: only the pointee inside [settings_map_] changes. *)
Definition write_settings (s : line_settings) (c : t) : t :=
  {| config_ := config_ c;
     settings_map_ := OffsetMap.insert (current_offset_ c) s (settings_map_ c);
     current_offset_ := current_offset_ c |}.

(** [config_->add_line_settings(current_offset_, *settings)]. *)
Definition update_config (s : line_settings) (c : t) : t :=
  {| config_ := config_add_line_settings (current_offset_ c) s (config_ c);
     settings_map_ := settings_map_ c;
     current_offset_ := current_offset_ c |}.

Definition EnsureSettingsForCurrentOffset (c : t) : line_settings * t :=
  match OffsetMap.find (current_offset_ c) (settings_map_ c) with
  | Some s => (s, c)
  | None => (default_settings, store_settings default_settings c)
  end.

Definition SetOffset (info : list Value) (c : t) : Completion Value * t :=
  match info with
  | Number z :: _ =>
      let c1 := with_current_offset (Uint32Value z) c in
      let '(_, c2) := EnsureSettingsForCurrentOffset c1 in
      (Return Undefined, c2)
  | _ => (Throw (TypeError "Offset number expected"), c)
  end.

Definition SetDirection (info : list Value) (c : t) : Completion Value * t :=
  match info with
  | String direction :: _ =>
      let '(settings, c1) := EnsureSettingsForCurrentOffset c in
      if String.eqb direction "input" then
        let s := set_direction INPUT settings in
        (Return Undefined, update_config s (write_settings s c1))
      else if String.eqb direction "output" then
        let s := set_direction OUTPUT settings in
        (Return Undefined, update_config s (write_settings s c1))
      else
        (Throw (TypeError "Invalid direction: must be 'input' or 'output'"), c1)
  | _ => (Throw (TypeError "Direction string expected"), c)
  end.

Definition SetEdge (info : list Value) (c : t) : Completion Value * t :=
  match info with
  | String edge :: _ =>
      let '(settings, c1) := EnsureSettingsForCurrentOffset c in
      if String.eqb edge "none" then
        let s := set_edge_detection NONE settings in
        (Return Undefined, update_config s (write_settings s c1))
      else if String.eqb edge "rising" then
        let s := set_edge_detection RISING settings in
        (Return Undefined, update_config s (write_settings s c1))
      else if String.eqb edge "falling" then
        let s := set_edge_detection FALLING settings in
        (Return Undefined, update_config s (write_settings s c1))
      else if String.eqb edge "both" then
        let s := set_edge_detection BOTH settings in
        (Return Undefined, update_config s (write_settings s c1))
      else
        (Throw (TypeError "Invalid edge: must be 'none', 'rising', 'falling', or 'both'"), c1)
  | _ => (Throw (TypeError "Edge string expected"), c)
  end.

Definition SetDrive (info : list Value) (c : t) : Completion Value * t :=
  match info with
  | String drive :: _ =>
      let '(settings, c1) := EnsureSettingsForCurrentOffset c in
      if String.eqb drive "push_pull" then
        let s := set_drive PUSH_PULL settings in
        (Return Undefined, update_config s (write_settings s c1))
      else if String.eqb drive "open_drain" then
        let s := set_drive OPEN_DRAIN settings in
        (Return Undefined, update_config s (write_settings s c1))
      else if String.eqb drive "open_source" then
        let s := set_drive OPEN_SOURCE settings in
        (Return Undefined, update_config s (write_settings s c1))
      else
        (Throw (TypeError "Invalid drive: must be 'push_pull', 'open_drain', or 'open_source'"), c1)
  | _ => (Throw (TypeError "Drive string expected"), c)
  end.

(** [settings->set_bias(b)] and, when it has not thrown,
    [config_->add_line_settings(current_offset_, *settings)]; the handler
    of [SetBias] turns what is thrown into an [Error].  [settings] points
    into [settings_map_], so what [set_bias] has done to the settings
    before throwing stays there. *)
Definition store_bias (b : bias) (settings : line_settings) (c1 : t) : Completion Value * t :=
  match set_bias b settings with
  | (Some what, s) => (Throw (Error ("Failed to set bias: " ++ what)), write_settings s c1)
  | (None, s) => (Return Undefined, update_config s (write_settings s c1))
  end.

Definition SetBias (info : list Value) (c : t) : Completion Value * t :=
  match info with
  | String bias :: _ =>
      let '(settings, c1) := EnsureSettingsForCurrentOffset c in
      if String.eqb bias "unknown" then store_bias UNKNOWN settings c1
      else if String.eqb bias "disabled" then store_bias DISABLED settings c1
      else if String.eqb bias "pull_up" then store_bias PULL_UP settings c1
      else if String.eqb bias "pull_down" then store_bias PULL_DOWN settings c1
      else
        (Throw (TypeError
           "Invalid bias: must be 'unknown', 'disabled', 'pull_up', or 'pull_down'"), c1)
  | _ => (Throw (TypeError "Bias string expected"), c)
  end.

Definition SetActiveLow (info : list Value) (c : t) : Completion Value * t :=
  match info with
  | Boolean active_low :: _ =>
      let '(settings, c1) := EnsureSettingsForCurrentOffset c in
      let s := set_active_low active_low settings in
      (Return Undefined, update_config s (write_settings s c1))
  | _ => (Throw (TypeError "Boolean expected"), c)
  end.

Definition SetOutputValue (info : list Value) (c : t) : Completion Value * t :=
  match info with
  | Boolean value :: _ =>
      let '(settings, c1) := EnsureSettingsForCurrentOffset c in
      let s := set_output_value (if value then ACTIVE else INACTIVE) settings in
      (Return Undefined, update_config s (write_settings s c1))
  | _ => (Throw (TypeError "Boolean expected"), c)
  end.

(** [uint64_t period_us = Int64Value()]: the signed value read as
    unsigned. *)
Definition SetDebouncePeriod (info : list Value) (c : t) : Completion Value * t :=
  match info with
  | Number z :: _ =>
      let period_us := Z.to_N (Int64Value z mod 18446744073709551616) in
      let '(settings, c1) := EnsureSettingsForCurrentOffset c in
      let s := set_debounce_period period_us settings in
      (Return Undefined, update_config s (write_settings s c1))
  | _ => (Throw (TypeError "Debounce period in microseconds expected"), c)
  end.

Definition GetConfig (c : t) : line_config := config_ c.

(** The four setters that take an enum string. *)
Inductive Setter := Direction | Edge | Drive | Bias.

Definition call_setter (st : Setter) : list Value -> t -> Completion Value * t :=
  match st with
  | Direction => SetDirection
  | Edge => SetEdge
  | Drive => SetDrive
  | Bias => SetBias
  end.

(** The strings a setter compares its argument with. *)
Definition recognized (st : Setter) (s : string) : bool :=
  match st with
  | Direction => String.eqb s "input" || String.eqb s "output"
  | Edge => String.eqb s "none" || String.eqb s "rising"
            || String.eqb s "falling" || String.eqb s "both"
  | Drive => String.eqb s "push_pull" || String.eqb s "open_drain"
             || String.eqb s "open_source"
  | Bias => String.eqb s "unknown" || String.eqb s "disabled"
            || String.eqb s "pull_up" || String.eqb s "pull_down"
  end.

(** The methods [Init] exposes, as one call type, to speak about
    sequences of calls on one object. *)
Inductive Call :=
| setOffset (info : list Value)
| setDirection (info : list Value)
| setEdge (info : list Value)
| setDrive (info : list Value)
| setBias (info : list Value)
| setActiveLow (info : list Value)
| setOutputValue (info : list Value)
| setDebouncePeriod (info : list Value).

Definition call (k : Call) : t -> Completion Value * t :=
  match k with
  | setOffset info => SetOffset info
  | setDirection info => SetDirection info
  | setEdge info => SetEdge info
  | setDrive info => SetDrive info
  | setBias info => SetBias info
  | setActiveLow info => SetActiveLow info
  | setOutputValue info => SetOutputValue info
  | setDebouncePeriod info => SetDebouncePeriod info
  end.

Definition calls (ks : list Call) (c : t) : t :=
  fold_left (fun c k => snd (call k c)) ks c.

(** The offsets of the store in the order in which the calls [ks]
    created their entries: a call creates an entry when the offset it
    works on has none before it and has one after it. *)
Fixpoint creation_order (ks : list Call) (c : t) : list N :=
  match ks with
  | [] => []
  | k :: rest =>
      let c' := snd (call k c) in
      let o := current_offset_ c' in
      match OffsetMap.find o (settings_map_ c), OffsetMap.find o (settings_map_ c') with
      | None, Some _ => o :: creation_order rest c'
      | _, _ => creation_order rest c'
      end
  end.

End LineConfig.

(* ===================================================================== *)
(** ** Chip (chip.cpp) *)
(* ===================================================================== *)

Module Chip.
Import Gpiod.

Record t := {
  chip_ : option chip;
  name_ : string
}.

(** The constructor; [open] is the device's answer to opening a chip by
    name. *)
Definition New (open : string -> result chip) (info : list Value) : Completion t :=
  match info with
  | String name :: _ =>
      match open name with
      | inl what => Throw (Error ("Failed to open GPIO chip: " ++ what))
      | inr g => Return {| chip_ := Some g; name_ := name |}
      end
  | _ => Throw (TypeError "String expected for chip name")
  end.

Definition GetNumLines (info : list Value) (c : t) : Completion Value :=
  match chip_ c with
  | None => Throw (Error "Chip is closed")
  | Some g =>
      match ch_get_info g with
      | inl what => Throw (Error ("Failed to get number of lines: " ++ what))
      | inr chip_info => Return (Number (Z.of_N (ci_num_lines chip_info)))
      end
  end.

(** [chip_.reset()] cannot throw, so the handler of [Close] is dead. *)
Definition Close (info : list Value) (c : t) : Completion Value * t :=
  match chip_ c with
  | None => (Return Undefined, c)
  | Some _ => (Return Undefined, {| chip_ := None; name_ := name_ c |})
  end.

Definition GetChip (c : t) : option chip := chip_ c.

Definition direction_string (d : direction) : string :=
  match d with
  | INPUT => "input"
  | OUTPUT => "output"
  | _ => "unknown"
  end.

Definition GetLineInfo (info : list Value) (c : t) : Completion Value :=
  match chip_ c with
  | None => Throw (Error "Chip is closed")
  | Some g =>
      match info with
      | Number z :: _ =>
          let offset := Uint32Value z in
          match ch_get_line_info g offset with
          | inl what => Throw (Error ("Failed to get line info: " ++ what))
          | inr line_info =>
              let consumer := li_consumer line_info in
              Return (Literal
                [ ("name", String (li_name line_info));
                  ("used", Boolean (li_used line_info));
                  ("direction", String (direction_string (li_direction line_info)));
                  ("activeLow", Boolean (li_active_low line_info));
                  ("consumer", String (if String.eqb consumer "" then "unused" else consumer)) ])
          end
      | _ => Throw (TypeError "Number expected for line offset")
      end
  end.

Definition GetLabel (info : list Value) (c : t) : Completion Value :=
  match chip_ c with
  | None => Throw (Error "Chip is closed")
  | Some g =>
      match ch_get_info g with
      | inl what => Throw (Error ("Failed to get chip label: " ++ what))
      | inr chip_info => Return (String (ci_label chip_info))
      end
  end.

(** The methods [Init] exposes. *)
Inductive Call :=
| getNumLines (info : list Value)
| getLineInfo (info : list Value)
| getLabel (info : list Value)
| close (info : list Value).

Definition call (k : Call) (c : t) : Completion Value * t :=
  match k with
  | getNumLines info => (GetNumLines info c, c)
  | getLineInfo info => (GetLineInfo info c, c)
  | getLabel info => (GetLabel info c, c)
  | close info => Close info c
  end.

(** The completions of a sequence of calls on one chip, in order. *)
Fixpoint calls (ks : list Call) (c : t) : list (Completion Value) * t :=
  match ks with
  | [] => ([], c)
  | k :: rest =>
      let '(r, c1) := call k c in
      let '(rs, c2) := calls rest c1 in
      (r :: rs, c2)
  end.

End Chip.

(* ===================================================================== *)
(** ** LineRequest (line_request.cpp) *)
(* ===================================================================== *)

Module LineRequest.
Import Gpiod.

(** [chip_] and [config_] point to the wrapped [Chip] and [LineConfig]
    the constructor was given. *)
Record t := {
  chip_ : nat;
  config_ : nat;
  offsets_ : list N;
  request_ : option line_request
}.

(** The loop over the offsets array: every element must be a number. *)
Fixpoint read_offsets (elems : list Value) : option (list N) :=
  match elems with
  | [] => Some []
  | Number z :: rest =>
      match read_offsets rest with
      | Some offsets => Some (Uint32Value z :: offsets)
      | None => None
      end
  | _ :: _ => None
  end.

(** The settings the non-empty branch passes to [add_line_settings] for
    one offset; [first] is [*settings_map.begin()]. *)
Definition resolve (settings_map : line_config) (first : N * line_settings) (offset : N)
  : line_settings :=
  match OffsetMap.find offset settings_map with
  | Some s => s
  | None =>
      match OffsetMap.find 0 settings_map with
      | Some s0 => s0
      | None => snd first
      end
  end.

(** Lines 68 to 98 of the constructor.  [settings_map] is
    [config_->GetConfig()->get_line_settings()] and [global] is
    [*config_->GetConfig()]; [begin()] is the end iterator exactly when
    [empty()] holds. *)
Definition add_requested_lines (settings_map global : line_config) (offsets : list N)
  (builder : request_builder) : request_builder :=
  match OffsetMap.begin settings_map with
  | None =>
      fold_left (fun b offset => builder_add_line_settings offset default_settings b)
                offsets (builder_set_line_config global builder)
  | Some first =>
      fold_left (fun b offset =>
                   builder_add_line_settings offset (resolve settings_map first offset) b)
                offsets builder
  end.

(** The builder the constructor hands to [do_request]. *)
Definition build (cfg : line_config) (offsets : list N) : request_builder :=
  add_requested_lines cfg cfg offsets
    (builder_set_consumer "libgpiod2-node" prepare_request).

(** The constructor; [chips] and [configs] give the native object behind
    a wrapper of the right class. *)
Definition New (chips : nat -> Chip.t) (configs : nat -> LineConfig.t) (info : list Value)
  : Completion t :=
  match info with
  | chipObj :: Array offsetsArray :: configObj :: _ =>
      if negb (IsObject chipObj) || negb (IsObject configObj) then
        Throw (TypeError "Chip object, offsets array, and LineConfig object expected")
      else
        match chipObj with
        | Object ChipClass chip_ref =>
            match read_offsets offsetsArray with
            | None => Throw (TypeError "Offsets array must contain only numbers")
            | Some offsets =>
                match configObj with
                | Object LineConfigClass config_ref =>
                    match Chip.GetChip (chips chip_ref) with
                    | None => Abort NullDereference
                    | Some g =>
                        let cfg := LineConfig.GetConfig (configs config_ref) in
                        match ch_do_request g (build cfg offsets) with
                        | inl what => Throw (Error ("Failed to request lines: " ++ what))
                        | inr r =>
                            Return {| chip_ := chip_ref; config_ := config_ref;
                                      offsets_ := offsets; request_ := Some r |}
                        end
                    end
                | _ => Throw (TypeError "Third argument must be a LineConfig instance")
                end
            end
        | _ => Throw (TypeError "First argument must be a Chip instance")
        end
  | _ => Throw (TypeError "Chip object, offsets array, and LineConfig object expected")
  end.

Definition value_number (v : value) : Value :=
  match v with INACTIVE => Number 0 | ACTIVE => Number 1 end.

Definition GetValue (info : list Value) (h : t) : Completion Value :=
  match info with
  | Number z :: _ =>
      let offset := Uint32Value z in
      match request_ h with
      | None => Throw (Error "Line request is not active")
      | Some r =>
          match lr_get_value r offset with
          | inl what => Throw (Error ("Failed to get value: " ++ what))
          | inr v => Return (value_number v)
          end
      end
  | _ => Throw (TypeError "Offset number expected")
  end.

Definition SetValue (info : list Value) (h : t) : Completion Value :=
  match info with
  | Number z :: Number v :: _ =>
      let offset := Uint32Value z in
      let intValue := Int32Value v in
      let value := if (intValue =? 0)%Z then INACTIVE else ACTIVE in
      match request_ h with
      | None => Throw (Error "Line request is not active")
      | Some r =>
          match lr_set_value r offset value with
          | inl what => Throw (Error ("Failed to set value: " ++ what))
          | inr _ => Return Undefined
          end
      end
  | _ => Throw (TypeError "Offset and value numbers expected")
  end.

(** [request_.reset()] cannot throw, so the handler of [Release] is
    dead. *)
Definition Release (info : list Value) (h : t) : Completion Value * t :=
  match request_ h with
  | Some _ =>
      (Return Undefined,
       {| chip_ := chip_ h; config_ := config_ h; offsets_ := offsets_ h; request_ := None |})
  | None => (Return Undefined, h)
  end.

Definition GetRequest (h : t) : option line_request := request_ h.

(** Whether the request holds [offset] with direction output. *)
Definition output_configured (h : t) (offset : N) : bool :=
  match request_ h with
  | Some r =>
      match OffsetMap.find offset (lr_granted r) with
      | Some s => match ls_direction s with OUTPUT => true | _ => false end
      | None => false
      end
  | None => false
  end.

(** The methods [Init] exposes. *)
Inductive Call :=
| getValue (info : list Value)
| setValue (info : list Value)
| release (info : list Value).

Definition call (k : Call) (h : t) : Completion Value * t :=
  match k with
  | getValue info => (GetValue info h, h)
  | setValue info => (SetValue info h, h)
  | release info => Release info h
  end.

Fixpoint calls (ks : list Call) (h : t) : list (Completion Value) * t :=
  match ks with
  | [] => ([], h)
  | k :: rest =>
      let '(r, h1) := call k h in
      let '(rs, h2) := calls rest h1 in
      (r :: rs, h2)
  end.

End LineRequest.

(* ===================================================================== *)
(** ** Line (line.cpp) *)
(* ===================================================================== *)

Module Line.
Import Gpiod.

(** What the caller's context does to the background machinery, oldest
    first.  The log is ghost state: no method reads it. *)
Inductive Effect :=
| tsfn_created (callback : nat)    (* Napi::ThreadSafeFunction::New *)
| thread_started                   (* std::thread(&Line::WatchThread, this) *)
| cv_notified                      (* watch_cv_.notify_all() *)
| thread_joined                    (* watch_thread_.join() *)
| tsfn_released                    (* tsfn_.Release() *)
| handle_reset (ref : nat).        (* request_.reset() on a bound handle *)

(** A [std::thread] object as its owner sees it. *)
Inductive Thread := not_a_thread | joinable.

Inductive Tsfn := no_tsfn | live_tsfn (callback : nat) | released_tsfn (callback : nat).

Record t := {
  chip_ : nat;
  offset_ : N;
  request_ : option nat;
  exported_ : bool;
  watch_thread_ : Thread;
  watching_ : bool;
  tsfn_ : Tsfn;
  effects : list Effect
}.

(** The native [LineRequest] objects by address; an address holds nothing
    once its object has been deleted. *)
Definition Heap := nat -> option LineRequest.t.

Definition delete (ref : nat) (requests : Heap) : Heap :=
  fun r => if Nat.eqb r ref then None else requests r.

Definition New (info : list Value) : Completion t :=
  match info with
  | chipObj :: Number z :: _ =>
      if negb (IsObject chipObj) then
        Throw (TypeError "Chip object and offset number expected")
      else
        match chipObj with
        | Object ChipClass chip_ref =>
            Return {| chip_ := chip_ref; offset_ := Uint32Value z; request_ := None;
                      exported_ := false; watch_thread_ := not_a_thread;
                      watching_ := false; tsfn_ := no_tsfn; effects := [] |}
        | _ => Throw (TypeError "First argument must be a Chip instance")
        end
  | _ => Throw (TypeError "Chip object and offset number expected")
  end.

Definition release_tsfn (f : Tsfn) : Tsfn :=
  match f with
  | live_tsfn cb => released_tsfn cb
  | other => other
  end.

Definition StopWatchThread (l : t) : t :=
  if watching_ l then
    match watch_thread_ l with
    | joinable =>
        {| chip_ := chip_ l; offset_ := offset_ l; request_ := request_ l;
           exported_ := exported_ l; watch_thread_ := not_a_thread; watching_ := false;
           tsfn_ := release_tsfn (tsfn_ l);
           effects := effects l ++ [cv_notified; thread_joined; tsfn_released] |}
    | not_a_thread =>
        {| chip_ := chip_ l; offset_ := offset_ l; request_ := request_ l;
           exported_ := exported_ l; watch_thread_ := not_a_thread; watching_ := false;
           tsfn_ := release_tsfn (tsfn_ l);
           effects := effects l ++ [tsfn_released] |}
    end
  else l.

(** [if (exported_) { request_.reset(); exported_ = false; }].  [Export]
    has made [request_] the one owner of the [LineRequest] it was given, so
    [reset()] deletes that object; deleting an object that has been
    deleted already is fatal.  The result is the fatal error, if any, the
    objects that are left and the line. *)
Definition unbind (requests : Heap) (l : t) : option Fatal * (Heap * t) :=
  if exported_ l then
    match request_ l with
    | Some ref =>
        (match requests ref with Some _ => None | None => Some UseAfterFree end,
         (delete ref requests,
          {| chip_ := chip_ l; offset_ := offset_ l; request_ := None; exported_ := false;
             watch_thread_ := watch_thread_ l; watching_ := watching_ l; tsfn_ := tsfn_ l;
             effects := effects l ++ [handle_reset ref] |}))
    | None =>
        (None,
         (requests,
          {| chip_ := chip_ l; offset_ := offset_ l; request_ := None; exported_ := false;
             watch_thread_ := watch_thread_ l; watching_ := watching_ l; tsfn_ := tsfn_ l;
             effects := effects l |}))
    end
  else (None, (requests, l)).

(** [request_ = std::shared_ptr<LineRequest>(Unwrap(requestObj));
    exported_ = true;] *)
Definition bind (ref : nat) (l : t) : t :=
  {| chip_ := chip_ l; offset_ := offset_ l; request_ := Some ref; exported_ := true;
     watch_thread_ := watch_thread_ l; watching_ := watching_ l; tsfn_ := tsfn_ l;
     effects := effects l |}.

Definition is_exported (l : t) : bool :=
  exported_ l && match request_ l with Some _ => true | None => false end.

Definition GetValue (requests : Heap) (info : list Value) (l : t) : Completion Value :=
  match exported_ l, request_ l with
  | true, Some ref =>
      match requests ref with
      | None => Abort UseAfterFree
      | Some h =>
          match LineRequest.GetRequest h with
          | None => Abort NullDereference
          | Some r =>
              match lr_get_value r (offset_ l) with
              | inl what => Throw (Error ("Failed to get line value: " ++ what))
              | inr v => Return (LineRequest.value_number v)
              end
          end
      end
  | _, _ => Throw (Error "Line is not exported")
  end.

Definition SetValue (requests : Heap) (info : list Value) (l : t) : Completion Value :=
  match info with
  | Number v :: _ =>
      match exported_ l, request_ l with
      | true, Some ref =>
          let intValue := Int32Value v in
          let value := if (intValue =? 0)%Z then INACTIVE else ACTIVE in
          match requests ref with
          | None => Abort UseAfterFree
          | Some h =>
              match LineRequest.GetRequest h with
              | None => Abort NullDereference
              | Some r =>
                  match lr_set_value r (offset_ l) value with
                  | inl what => Throw (Error ("Failed to set line value: " ++ what))
                  | inr _ => Return Undefined
                  end
              end
          end
      | _, _ => Throw (Error "Line is not exported")
      end
  | _ => Throw (TypeError "Value number expected")
  end.

Definition Export (info : list Value) (requests : Heap) (l : t)
  : Completion Value * (Heap * t) :=
  match info with
  | requestObj :: _ =>
      if negb (IsObject requestObj) then
        (Throw (TypeError "LineRequest object expected"), (requests, l))
      else
        match requestObj with
        | Object LineRequestClass ref =>
            match unbind requests l with
            | (Some fatal, w) => (Abort fatal, w)
            | (None, (requests1, l1)) => (Return Undefined, (requests1, bind ref l1))
            end
        | _ => (Throw (TypeError "Argument must be a LineRequest instance"), (requests, l))
        end
  | [] => (Throw (TypeError "LineRequest object expected"), (requests, l))
  end.

Definition Unexport (info : list Value) (requests : Heap) (l : t)
  : Completion Value * (Heap * t) :=
  match unbind requests (StopWatchThread l) with
  | (Some fatal, w) => (Abort fatal, w)
  | (None, w) => (Return Undefined, w)
  end.

(** Assigning to [watch_thread_] while it is joinable calls
    [std::terminate]. *)
Definition Watch (info : list Value) (l : t) : Completion Value * t :=
  match info with
  | Function callback :: _ =>
      if is_exported l then
        let l1 := StopWatchThread l in
        let l2 :=
          {| chip_ := chip_ l1; offset_ := offset_ l1; request_ := request_ l1;
             exported_ := exported_ l1; watch_thread_ := watch_thread_ l1;
             watching_ := true; tsfn_ := live_tsfn callback;
             effects := effects l1 ++ [tsfn_created callback] |} in
        match watch_thread_ l2 with
        | joinable => (Abort StdTerminate, l2)
        | not_a_thread =>
            (Return Undefined,
             {| chip_ := chip_ l2; offset_ := offset_ l2; request_ := request_ l2;
                exported_ := exported_ l2; watch_thread_ := joinable;
                watching_ := true; tsfn_ := tsfn_ l2;
                effects := effects l2 ++ [thread_started] |})
        end
      else (Throw (Error "Line is not exported"), l)
  | _ => (Throw (TypeError "Callback function expected"), l)
  end.

Definition Unwatch (info : list Value) (l : t) : Completion Value * t :=
  (Return Undefined, StopWatchThread l).

(** The destructor; destroying the member [watch_thread_] while it is
    joinable calls [std::terminate]. *)
Definition Destroy (requests : Heap) (l : t) : Completion Value * (Heap * t) :=
  match unbind requests (StopWatchThread l) with
  | (Some fatal, w) => (Abort fatal, w)
  | (None, (requests1, l1)) =>
      match watch_thread_ l1 with
      | joinable => (Abort StdTerminate, (requests1, l1))
      | not_a_thread => (Return Undefined, (requests1, l1))
      end
  end.

(** The finalizer given to the thread-safe function in [Watch]. *)
Definition tsfn_finalizer (l : t) : t :=
  {| chip_ := chip_ l; offset_ := offset_ l; request_ := request_ l;
     exported_ := exported_ l; watch_thread_ := watch_thread_ l; watching_ := false;
     tsfn_ := tsfn_ l; effects := effects l ++ [cv_notified] |}.

(** The methods [Init] exposes, and the destructor. *)
Inductive Call :=
| getValue (info : list Value)
| setValue (info : list Value)
| export (info : list Value)
| unexport (info : list Value)
| watch (info : list Value)
| unwatch (info : list Value)
| destroy.

Definition call (requests : Heap) (k : Call) (l : t) : Completion Value * (Heap * t) :=
  match k with
  | getValue info => (GetValue requests info l, (requests, l))
  | setValue info => (SetValue requests info l, (requests, l))
  | export info => Export info requests l
  | unexport info => Unexport info requests l
  | watch info => let '(r, l1) := Watch info l in (r, (requests, l1))
  | unwatch info => let '(r, l1) := Unwatch info l in (r, (requests, l1))
  | destroy => Destroy requests l
  end.

Definition stops_watch (k : Call) : bool :=
  match k with
  | unexport _ | unwatch _ | destroy => true
  | _ => false
  end.

(** What the caller's context can run on a line: a method the program
    calls, or, on a later turn of the event loop, the finalizer of a
    thread-safe function that has been released. *)
Inductive Event :=
| method (k : Call)
| tsfn_finalized.

Definition step (requests : Heap) (e : Event) (l : t) : Completion Value * (Heap * t) :=
  match e with
  | method k => call requests k l
  | tsfn_finalized => (Return Undefined, (requests, tsfn_finalizer l))
  end.

(** *** The background loop *)

(** What the callback is called with: [(null, value)] or [(error, null)]. *)
Inductive Notification :=
| event (value : Z)
| error (what : string).

(** [auto callback = [e](...) {...}] in the handler copies the caught
    [const std::exception&] into an object of type [std::exception]: the
    copy has lost what the device library threw, and its [what()] is that
    of the base class. *)
Definition sliced_what : string := "std::exception".

(** What the device does in one round of the loop. *)
Inductive Outcome :=
| timed_out                      (* wait_edge_events returns false *)
| edge_event (ty : event_type)   (* it returns true; read_edge_events gives one event *)
| wait_throws (what : string)    (* wait_edge_events throws *)
| read_throws (what : string).   (* it returns true; reading the event throws *)

(** One round of the loop as the thread lives it: what the device does,
    and whether the caller's context clears [watching_] before the loop
    condition is read, while the thread is inside [wait_edge_events], or
    after that and before the thread reads the flag again (in the handler
    when reading the event throws, at the loop condition when the event
    has been sent). *)
Record Round := {
  stop_before : bool;
  stop_in_wait : bool;
  stop_in_read : bool;
  outcome : Outcome
}.

Inductive Status :=
| exited      (* WatchThread returned *)
| blocked     (* still inside the loop when the rounds end *)
| crashed.    (* a member call through an empty or dangling pointer *)

Record Run := {
  delivered : list Notification;   (* the BlockingCalls made, oldest first *)
  watching_after : bool;
  status : Status
}.

Definition edge_value (ty : event_type) : Z :=
  match ty with RISING_EDGE => 1%Z | FALLING_EDGE => 0%Z end.

(** [while (watching_) { try { ... } catch (const std::exception& e) { ... } }];
    [watching] is the flag as this thread last left or saw it. *)
Fixpoint watch_loop (rounds : list Round) (watching : bool) (sent : list Notification) : Run :=
  match rounds with
  | [] =>
      {| delivered := sent; watching_after := watching;
         status := if watching then blocked else exited |}
  | r :: rest =>
      if watching && negb (stop_before r) then
        let w := negb (stop_in_wait r) in
        match outcome r with
        | timed_out => watch_loop rest w sent
        | edge_event ty =>
            if w then
              watch_loop rest (negb (stop_in_read r)) (sent ++ [event (edge_value ty)])
            else watch_loop rest w sent
        | wait_throws what =>
            if w then watch_loop rest false (sent ++ [error sliced_what])
            else watch_loop rest w sent
        | read_throws what =>
            if w then
              if negb (stop_in_read r) then watch_loop rest false (sent ++ [error sliced_what])
              else watch_loop rest false sent
            else watch_loop rest w sent
        end
      else {| delivered := sent; watching_after := false; status := exited |}
  end.

(** The loop when [request] is an empty pointer: the first
    [wait_edge_events] goes through it. *)
Definition watch_loop_null (rounds : list Round) (watching : bool) : Run :=
  match rounds with
  | [] =>
      {| delivered := []; watching_after := watching;
         status := if watching then blocked else exited |}
  | r :: _ =>
      if watching && negb (stop_before r) then
        {| delivered := []; watching_after := true; status := crashed |}
      else {| delivered := []; watching_after := false; status := exited |}
  end.

(** The body of the thread.  It first reads the device request out of
    the bound [LineRequest], which must not have been deleted, then
    constructs the event buffer; [buffer_throws] says whether that throws,
    which the outer handler swallows. *)
Definition WatchThread (requests : Heap) (buffer_throws : bool)
  (rounds : list Round) (l : t) : Run :=
  match request_ l, exported_ l with
  | Some ref, true =>
      match requests ref with
      | None => {| delivered := []; watching_after := watching_ l; status := crashed |}
      | Some h =>
          if buffer_throws then
            {| delivered := []; watching_after := watching_ l; status := exited |}
          else
            match LineRequest.GetRequest h with
            | Some _ => watch_loop rounds (watching_ l) []
            | None => watch_loop_null rounds (watching_ l)
            end
      end
  | _, _ => {| delivered := []; watching_after := watching_ l; status := exited |}
  end.

End Line.

(* ===================================================================== *)
(** ** Notions used in the statements *)
(* ===================================================================== *)

Import Gpiod Taxonomy.

(** [e] is an entry of [m] and no entry of [m] has a smaller offset. *)
Definition least_entry (m : line_config) (e : N * line_settings) : Prop :=
  OffsetMap.find (fst e) m = Some (snd e)
  /\ forall k s, OffsetMap.find k m = Some s -> fst e <= k.

(** The [(offset, settings)] pairs given to [add_line_settings], in call
    order. *)
Definition added_lines (b : request_builder) : list (N * line_settings) :=
  flat_map (fun c => match c with
                     | add_line_settings o s => [(o, s)]
                     | _ => []
                     end) (rb_calls b).

(** The two maps of a [LineConfig] agree. *)
Definition synced (c : LineConfig.t) : Prop :=
  LineConfig.settings_map_ c = LineConfig.config_ c.

(** The settings the constructor of [LineRequest] is claimed to pick for
    [o] when the store is not empty; [least] is the settings of the least
    configured offset. *)
Definition fallback (cfg : line_config) (least : line_settings) (o : N) : line_settings :=
  match OffsetMap.find o cfg with
  | Some s => s
  | None =>
      match OffsetMap.find 0 cfg with
      | Some s0 => s0
      | None => least
      end
  end.

(** Offset 5 configured first, as an output, then offset 2, as an input. *)
Definition five_then_two : list LineConfig.Call :=
  [ LineConfig.setOffset [Number 5]; LineConfig.setDirection [String "output"];
    LineConfig.setOffset [Number 2]; LineConfig.setDirection [String "input"] ].

Definition input_settings : line_settings := set_direction INPUT default_settings.
Definition output_settings : line_settings := set_direction OUTPUT default_settings.

(** A request that answers writes the way the kernel does: a write to a
    line that is not an output is refused. *)
Definition kernel_like_request (granted : line_config) : line_request :=
  {| lr_granted := granted;
     lr_get_value := fun o =>
       match OffsetMap.find o granted with
       | Some _ => inr INACTIVE
       | None => inl "Invalid argument"
       end;
     lr_set_value := fun o _ =>
       match OffsetMap.find o granted with
       | Some s => match ls_direction s with
                   | OUTPUT => inr tt
                   | _ => inl "Operation not permitted"
                   end
       | None => inl "Invalid argument"
       end |}.

(** A live handle on offset 3, requested as an input. *)
Definition input_handle : LineRequest.t :=
  {| LineRequest.chip_ := 0%nat; LineRequest.config_ := 1%nat; LineRequest.offsets_ := [3];
     LineRequest.request_ := Some (kernel_like_request [(3, input_settings)]) |}.

(** A line on offset 4 as its constructor leaves it. *)
Definition idle_line : Line.t :=
  {| Line.chip_ := 0%nat; Line.offset_ := 4; Line.request_ := None; Line.exported_ := false;
     Line.watch_thread_ := Line.not_a_thread; Line.watching_ := false;
     Line.tsfn_ := Line.no_tsfn; Line.effects := [] |}.

(** Two [LineRequest] objects, at the addresses 7 and 8, each holding a
    live handle. *)
Definition two_requests : Line.Heap :=
  fun ref => if Nat.eqb ref 7 || Nat.eqb ref 8 then Some input_handle else None.

(** The same line after [export(request)], of the object at 7, and
    [watch(callback)]. *)
Definition watching_line : Line.t :=
  snd (Line.Watch [Function 1]
         (snd (snd (Line.Export [Object LineRequestClass 7] two_requests idle_line)))).

(** Rounds in which the caller's context does not interfere. *)
Definition quiet_round (o : Line.Outcome) : Line.Round :=
  {| Line.stop_before := false; Line.stop_in_wait := false; Line.stop_in_read := false;
     Line.outcome := o |}.

(** How many background threads the calls on a line have started. *)
Definition threads_started (l : Line.t) : nat :=
  List.length (filter (fun e => match e with Line.thread_started => true | _ => false end)
                      (Line.effects l)).

Definition is_event (n : Line.Notification) : Prop :=
  match n with Line.event _ => True | Line.error _ => False end.

(** Calls on a [LineRequest] whose arguments have the expected types. *)
Definition well_typed (k : LineRequest.Call) : Prop :=
  match k with
  | LineRequest.getValue (Number _ :: _) => True
  | LineRequest.setValue (Number _ :: Number _ :: _) => True
  | LineRequest.release _ => True
  | _ => False
  end.

(* ===================================================================== *)
(** ** Notions used in the further properties *)
(* ===================================================================== *)

(** The settings a setter works on: the entry of the current offset, or
    default settings when it has none yet. *)
Definition current_settings (c : LineConfig.t) : line_settings :=
  match OffsetMap.find (LineConfig.current_offset_ c) (LineConfig.settings_map_ c) with
  | Some s => s
  | None => default_settings
  end.

(** The current offset has an entry in the map of the wrapper. *)
Definition cursor_configured (c : LineConfig.t) : Prop :=
  OffsetMap.find (LineConfig.current_offset_ c) (LineConfig.settings_map_ c) <> None.

(** The members of [gpiod::line_settings] the wrapper can set. *)
Inductive Field :=
| FDirection | FEdge | FBias | FDrive | FActiveLow | FDebounce | FOutputValue.

(** The member a method of [LineConfig] writes. *)
Definition field_of_call (k : LineConfig.Call) : option Field :=
  match k with
  | LineConfig.setOffset _ => None
  | LineConfig.setDirection _ => Some FDirection
  | LineConfig.setEdge _ => Some FEdge
  | LineConfig.setDrive _ => Some FDrive
  | LineConfig.setBias _ => Some FBias
  | LineConfig.setActiveLow _ => Some FActiveLow
  | LineConfig.setOutputValue _ => Some FOutputValue
  | LineConfig.setDebouncePeriod _ => Some FDebounce
  end.

Definition same_field (f : Field) (a b : line_settings) : Prop :=
  match f with
  | FDirection => ls_direction a = ls_direction b
  | FEdge => ls_edge_detection a = ls_edge_detection b
  | FBias => ls_bias a = ls_bias b
  | FDrive => ls_drive a = ls_drive b
  | FActiveLow => ls_active_low a = ls_active_low b
  | FDebounce => ls_debounce_period a = ls_debounce_period b
  | FOutputValue => ls_output_value a = ls_output_value b
  end.

Definition is_set_offset (k : LineConfig.Call) : bool :=
  match k with LineConfig.setOffset _ => true | _ => false end.

(** The three queries of a [Chip], as opposed to [close]. *)
Definition is_query (k : Chip.Call) : bool :=
  match k with Chip.close _ => false | _ => true end.

(** A device with four lines; line 1 is held by another process, and a
    request is granted as submitted. *)
Definition four_line_chip : chip :=
  {| ch_get_info := inr {| ci_name := "gpiochip0"; ci_label := "pinctrl"; ci_num_lines := 4 |};
     ch_get_line_info := fun o =>
       if o <? 4 then
         inr {| li_name := "GPIO"; li_used := (o =? 1); li_direction := DIR_AS_IS;
                li_active_low := false;
                li_consumer := if o =? 1 then "spi0 CS0" else "" |}
       else inl "Invalid argument";
     ch_do_request := fun b => inr (kernel_like_request (rb_config b)) |}.

Definition open_chip : Chip.t := {| Chip.chip_ := Some four_line_chip; Chip.name_ := "gpiochip0" |}.

(** The completions of a sequence of calls on one line, in order, with
    the objects and the line they leave. *)
Fixpoint line_calls (requests : Line.Heap) (ks : list Line.Call) (l : Line.t)
  : list (Completion Value) * (Line.Heap * Line.t) :=
  match ks with
  | [] => ([], (requests, l))
  | k :: rest =>
      let '(r, (requests1, l1)) := Line.call requests k l in
      let '(rs, w) := line_calls requests1 rest l1 in
      (r :: rs, w)
  end.

(** The completions of a sequence of events on one line, in order, with
    the objects and the line they leave. *)
Fixpoint line_steps (requests : Line.Heap) (es : list Line.Event) (l : Line.t)
  : list (Completion Value) * (Line.Heap * Line.t) :=
  match es with
  | [] => ([], (requests, l))
  | e :: rest =>
      let '(r, (requests1, l1)) := Line.step requests e l in
      let '(rs, w) := line_steps requests1 rest l1 in
      (r :: rs, w)
  end.

Definition is_export (k : Line.Call) : bool :=
  match k with Line.export _ => true | _ => false end.

(** How many background threads the calls on a line have joined. *)
Definition threads_joined (l : Line.t) : nat :=
  List.length (filter (fun e => match e with Line.thread_joined => true | _ => false end)
                      (Line.effects l)).

(** A line whose flag and thread agree: the line is watching exactly
    when it owns a thread to join, it watches only while exported, and
    every thread started has been joined, but the one it owns. *)
Definition thread_invariant (l : Line.t) : Prop :=
  (Line.watching_ l = true <-> Line.watch_thread_ l = Line.joinable)
  /\ (Line.watching_ l = true -> Line.is_exported l = true)
  /\ threads_started l
     = (threads_joined l
        + match Line.watch_thread_ l with Line.joinable => 1 | Line.not_a_thread => 0 end)%nat.

(** The line as the caller's context finds it when the thread has gone
    through the run [r]: the thread has written the flag, and the thread
    object stays joinable until somebody joins it. *)
Definition after_run (r : Line.Run) (l : Line.t) : Line.t :=
  {| Line.chip_ := Line.chip_ l; Line.offset_ := Line.offset_ l;
     Line.request_ := Line.request_ l; Line.exported_ := Line.exported_ l;
     Line.watch_thread_ := Line.watch_thread_ l;
     Line.watching_ := Line.watching_after r;
     Line.tsfn_ := Line.tsfn_ l; Line.effects := Line.effects l |}.

(** The events of the rounds, in order. *)
Definition round_events (rounds : list Line.Round) : list Line.Notification :=
  flat_map (fun r => match Line.outcome r with
                     | Line.edge_event ty => [Line.event (Line.edge_value ty)]
                     | _ => []
                     end) rounds.

(** A round in which the caller's context leaves the flag alone and the
    device does not throw. *)
Definition undisturbed (r : Line.Round) : Prop :=
  Line.stop_before r = false /\ Line.stop_in_wait r = false
  /\ Line.stop_in_read r = false
  /\ match Line.outcome r with
     | Line.timed_out | Line.edge_event _ => True
     | _ => False
     end.

(** A round during which the caller's context does not touch the flag. *)
Definition caller_silent (r : Line.Round) : Prop :=
  Line.stop_before r = false /\ Line.stop_in_wait r = false /\ Line.stop_in_read r = false.

(** Case analysis on the next conditional of the goal. *)
Ltac break_if :=
  match goal with
  | |- context [if ?b then _ else _] => destruct b eqn:?
  end.

(* ===================================================================== *)
(** ** Lemmas on the ordered map *)
(* ===================================================================== *)

Section OffsetMapFacts.
Context {V : Type}.
Implicit Types (m : OffsetMap.t V) (k : N) (v : V).

Lemma find_insert_eq m k v : OffsetMap.find k (OffsetMap.insert k v m) = Some v.
Proof.
  induction m as [|[k' v'] rest IH]; simpl.
  - now rewrite N.eqb_refl.
  - destruct (k <? k') eqn:Hlt; simpl.
    + now rewrite N.eqb_refl.
    + destruct (k =? k') eqn:Heq; simpl.
      * now rewrite N.eqb_refl.
      * now rewrite Heq.
Qed.

Lemma find_insert_ne m k k' v :
  k <> k' -> OffsetMap.find k' (OffsetMap.insert k v m) = OffsetMap.find k' m.
Proof.
  intros Hne. apply N.neq_sym in Hne.
  induction m as [|[j w] rest IH]; simpl.
  - apply N.eqb_neq in Hne. now rewrite Hne.
  - destruct (k <? j) eqn:Hlt; simpl.
    + apply N.eqb_neq in Hne. now rewrite Hne.
    + destruct (k =? j) eqn:Heq; simpl.
      * apply N.eqb_eq in Heq. subst j.
        apply N.eqb_neq in Hne. now rewrite Hne.
      * now rewrite IH.
Qed.


Lemma sorted_from_insert m lo k v :
  lo < k -> OffsetMap.sorted_from lo m -> OffsetMap.sorted_from lo (OffsetMap.insert k v m).
Proof.
  revert lo. induction m as [|[k' v'] rest IH]; intros lo Hlo Hs; simpl in *.
  - auto.
  - destruct Hs as [Hlt Hs].
    destruct (k <? k') eqn:Hk; simpl.
    + apply N.ltb_lt in Hk. auto.
    + destruct (k =? k') eqn:He; simpl.
      * apply N.eqb_eq in He. subst k'. auto.
      * apply N.ltb_ge in Hk. apply N.eqb_neq in He.
        split; [assumption|]. apply IH; [lia|assumption].
Qed.

Lemma sorted_insert m k v : OffsetMap.sorted m -> OffsetMap.sorted (OffsetMap.insert k v m).
Proof.
  destruct m as [|[k' v'] rest]; simpl; [trivial|].
  intros Hs.
  destruct (k <? k') eqn:Hk; simpl.
  - apply N.ltb_lt in Hk. auto.
  - destruct (k =? k') eqn:He; simpl.
    + apply N.eqb_eq in He. now subst k'.
    + apply N.ltb_ge in Hk. apply N.eqb_neq in He.
      apply sorted_from_insert; [lia|assumption].
Qed.

Lemma sorted_from_find m lo k v :
  OffsetMap.sorted_from lo m -> OffsetMap.find k m = Some v -> lo < k.
Proof.
  revert lo. induction m as [|[k' v'] rest IH]; intros lo Hs Hf; simpl in *.
  - discriminate.
  - destruct Hs as [Hlt Hs].
    destruct (k =? k') eqn:He.
    + apply N.eqb_eq in He. now subst k'.
    + specialize (IH k' Hs Hf). lia.
Qed.

(** In a sorted map [begin()] is the entry with the least key. *)
Lemma begin_least m k0 v0 :
  OffsetMap.sorted m -> OffsetMap.begin m = Some (k0, v0) ->
  OffsetMap.find k0 m = Some v0
  /\ forall k v, OffsetMap.find k m = Some v -> k0 <= k.
Proof.
  destruct m as [|[k' v'] rest]; simpl; [discriminate|].
  intros Hs [= -> ->]. split.
  - now rewrite N.eqb_refl.
  - intros k v. destruct (k =? k0) eqn:He.
    + apply N.eqb_eq in He. lia.
    + intros Hf. pose proof (sorted_from_find _ _ _ _ Hs Hf). lia.
Qed.

End OffsetMapFacts.

(* ===================================================================== *)
(** ** LineConfig: the order of the line configuration *)
(* ===================================================================== *)

Lemma ensure_sorted c :
  OffsetMap.sorted (LineConfig.config_ c) ->
  OffsetMap.sorted (LineConfig.config_ (snd (LineConfig.EnsureSettingsForCurrentOffset c))).
Proof.
  intros Ho. unfold LineConfig.EnsureSettingsForCurrentOffset.
  destruct (OffsetMap.find _ _); simpl; [assumption|now apply sorted_insert].
Qed.

Lemma call_sorted k c :
  OffsetMap.sorted (LineConfig.config_ c) ->
  OffsetMap.sorted (LineConfig.config_ (snd (LineConfig.call k c))).
Proof.
  intros Ho.
  destruct k as [info|info|info|info|info|info|info|info]; simpl;
    destruct info as [|[] rest]; simpl; try assumption;
    try (pose proof (ensure_sorted c Ho) as H;
         destruct (LineConfig.EnsureSettingsForCurrentOffset c) as [s0 c1]; simpl in H;
         repeat (break_if; simpl); try assumption; now apply sorted_insert).
  unfold LineConfig.SetOffset.
  pose proof (ensure_sorted (LineConfig.with_current_offset (Uint32Value z) c) Ho) as H.
  destruct (LineConfig.EnsureSettingsForCurrentOffset _) as [s0 c2]. exact H.
Qed.

(** The line configuration of every store reached by calls of the
    methods is in ascending order of the offsets. *)
Lemma calls_sorted ks c :
  OffsetMap.sorted (LineConfig.config_ c) ->
  OffsetMap.sorted (LineConfig.config_ (LineConfig.calls ks c)).
Proof.
  revert c. induction ks as [|k rest IH]; intros c Ho; simpl; [assumption|].
  apply IH. now apply call_sorted.
Qed.

(* ===================================================================== *)
(** ** LineRequest: what the constructor submits *)
(* ===================================================================== *)

Section BuilderFacts.
Variable f : N -> line_settings.

Lemma fold_add_calls offsets b :
  rb_calls (fold_left (fun b o => builder_add_line_settings o (f o) b) offsets b)
  = (rb_calls b ++ map (fun o => add_line_settings o (f o)) offsets)%list.
Proof.
  revert b. induction offsets as [|o rest IH]; intros b; simpl.
  - now rewrite app_nil_r.
  - rewrite IH. simpl. now rewrite <- app_assoc.
Qed.

Lemma fold_add_config_other offsets b o :
  ~ In o offsets ->
  OffsetMap.find o (rb_config (fold_left (fun b o => builder_add_line_settings o (f o) b)
                                         offsets b))
  = OffsetMap.find o (rb_config b).
Proof.
  revert b. induction offsets as [|o' rest IH]; intros b Hn; simpl; [reflexivity|].
  rewrite IH by (intros H; apply Hn; now right).
  simpl. unfold config_add_line_settings. apply find_insert_ne.
  intros ->. apply Hn. now left.
Qed.

Lemma fold_add_config offsets b o :
  In o offsets ->
  OffsetMap.find o (rb_config (fold_left (fun b o => builder_add_line_settings o (f o) b)
                                         offsets b))
  = Some (f o).
Proof.
  revert b. induction offsets as [|o' rest IH]; intros b Hin; simpl; [destruct Hin|].
  destruct (in_dec N.eq_dec o rest) as [Hr|Hr].
  - now apply IH.
  - destruct Hin as [->|Hin]; [|contradiction].
    rewrite fold_add_config_other by assumption.
    simpl. apply find_insert_eq.
Qed.

End BuilderFacts.

Lemma added_lines_adds (f : N -> line_settings) pre offsets :
  flat_map (fun c => match c with
                     | add_line_settings o s => [(o, s)]
                     | _ => []
                     end) (pre ++ map (fun o => add_line_settings o (f o)) offsets)%list
  = (flat_map (fun c => match c with
                        | add_line_settings o s => [(o, s)]
                        | _ => []
                        end) pre ++ map (fun o => (o, f o)) offsets)%list.
Proof.
  rewrite flat_map_app. f_equal.
  induction offsets as [|o rest IH]; simpl; [reflexivity|now rewrite IH].
Qed.

(** The calls the constructor makes on the builder, in both branches. *)
Lemma build_calls cfg offsets :
  rb_calls (LineRequest.build cfg offsets) =
  match OffsetMap.begin cfg with
  | None =>
      ([set_consumer "libgpiod2-node"; set_line_config cfg]
         ++ map (fun o => add_line_settings o default_settings) offsets)%list
  | Some first =>
      ([set_consumer "libgpiod2-node"]
         ++ map (fun o => add_line_settings o (LineRequest.resolve cfg first o)) offsets)%list
  end.
Proof.
  unfold LineRequest.build, LineRequest.add_requested_lines.
  destruct (OffsetMap.begin cfg) as [first|].
  - now rewrite (fold_add_calls (LineRequest.resolve cfg first)).
  - now rewrite (fold_add_calls (fun _ => default_settings)).
Qed.

Lemma build_added_lines cfg offsets :
  added_lines (LineRequest.build cfg offsets) =
  match OffsetMap.begin cfg with
  | None => map (fun o => (o, default_settings)) offsets
  | Some first => map (fun o => (o, LineRequest.resolve cfg first o)) offsets
  end.
Proof.
  unfold added_lines. rewrite build_calls.
  destruct (OffsetMap.begin cfg) as [first|].
  - now rewrite (added_lines_adds (LineRequest.resolve cfg first)).
  - now rewrite (added_lines_adds (fun _ => default_settings)).
Qed.

Lemma build_config cfg offsets o :
  In o offsets ->
  OffsetMap.find o (rb_config (LineRequest.build cfg offsets)) =
  match OffsetMap.begin cfg with
  | None => Some default_settings
  | Some first => Some (LineRequest.resolve cfg first o)
  end.
Proof.
  intros Hin. unfold LineRequest.build, LineRequest.add_requested_lines.
  destruct (OffsetMap.begin cfg) as [first|].
  - now rewrite (fold_add_config (LineRequest.resolve cfg first)).
  - now rewrite (fold_add_config (fun _ => default_settings)).
Qed.

(** With well-typed arguments and an open chip the constructor submits
    exactly [build] and keeps what the device grants. *)
Lemma New_submits_build chips configs chip_ref config_ref zs rest g :
  Chip.GetChip (chips chip_ref) = Some g ->
  LineRequest.New chips configs
    (Object ChipClass chip_ref :: Array (map Number zs) :: Object LineConfigClass config_ref
       :: rest)
  = match ch_do_request g (LineRequest.build (LineConfig.GetConfig (configs config_ref))
                                             (map Uint32Value zs)) with
    | inl what => Throw (Error ("Failed to request lines: " ++ what))
    | inr r => Return {| LineRequest.chip_ := chip_ref; LineRequest.config_ := config_ref;
                         LineRequest.offsets_ := map Uint32Value zs;
                         LineRequest.request_ := Some r |}
    end.
Proof.
  intros Hg. unfold LineRequest.New. simpl.
  assert (Hr : LineRequest.read_offsets (map Number zs) = Some (map Uint32Value zs)).
  { induction zs as [|z zs IH]; simpl; [reflexivity|now rewrite IH]. }
  rewrite Hr, Hg. reflexivity.
Qed.

(** C1 (as amended).  The constructor of [LineRequest] adds one line per
    requested offset, in the order of the sequence.  When the mapping of
    the store is empty every line gets default settings.  Otherwise the
    line of an offset gets that offset's own settings if the mapping has
    them, else the settings of offset 0 if the mapping has them, else the
    settings of the first entry of the mapping, which is the entry of the
    least configured offset whatever the order in which the offsets were
    configured.  The line configuration submitted to the device holds
    these settings for every requested offset. *)
Theorem build_resolves_each_offset (cfg : line_config) (offsets : list N) :
  OffsetMap.sorted cfg ->
  match OffsetMap.begin cfg with
  | None =>
      added_lines (LineRequest.build cfg offsets)
      = map (fun o => (o, default_settings)) offsets
      /\ forall o, In o offsets ->
           OffsetMap.find o (rb_config (LineRequest.build cfg offsets))
           = Some default_settings
  | Some least =>
      least_entry cfg least
      /\ added_lines (LineRequest.build cfg offsets)
         = map (fun o => (o, fallback cfg (snd least) o)) offsets
      /\ forall o, In o offsets ->
           OffsetMap.find o (rb_config (LineRequest.build cfg offsets))
           = Some (fallback cfg (snd least) o)
  end.
Proof.
  intros Hs.
  pose proof (build_added_lines cfg offsets) as Ha.
  pose proof (build_config cfg offsets) as Hc.
  destruct (OffsetMap.begin cfg) as [[k0 s0]|] eqn:Hb.
  - split; [|split].
    + unfold least_entry. simpl. now apply begin_least.
    + exact Ha.
    + exact Hc.
  - split; assumption.
Qed.

Lemma build_resolves_each_offset_witness :
  OffsetMap.sorted (LineConfig.GetConfig (LineConfig.calls five_then_two LineConfig.new))
  /\ added_lines
       (LineRequest.build
          (LineConfig.GetConfig (LineConfig.calls five_then_two LineConfig.new)) [2; 3; 5])
     = [(2, input_settings); (3, input_settings); (5, output_settings)].
Proof.
  assert (Hs : OffsetMap.sorted
                 (LineConfig.GetConfig (LineConfig.calls five_then_two LineConfig.new)))
    by (cbv; repeat split).
  split; [exact Hs|].
  pose proof (build_resolves_each_offset
                (LineConfig.GetConfig (LineConfig.calls five_then_two LineConfig.new))
                [2; 3; 5] Hs) as H.
  simpl in H. destruct H as (_ & H & _). exact H.
Defined.

(** C1 (as stated) fails.  Offset 5 is configured first, as an output,
    then offset 2, as an input; neither offset 3 nor offset 0 has
    settings.  A request for offset 3 gets the settings of offset 2, not
    those of offset 5, the offset that was configured first. *)
Lemma first_configured_offset_is_not_the_fallback :
  LineConfig.creation_order five_then_two LineConfig.new = [5; 2]
  /\ OffsetMap.find 3 (LineConfig.GetConfig (LineConfig.calls five_then_two LineConfig.new))
     = None
  /\ OffsetMap.find 0 (LineConfig.GetConfig (LineConfig.calls five_then_two LineConfig.new))
     = None
  /\ OffsetMap.find 5 (LineConfig.GetConfig (LineConfig.calls five_then_two LineConfig.new))
     = Some output_settings
  /\ OffsetMap.find 2 (LineConfig.GetConfig (LineConfig.calls five_then_two LineConfig.new))
     = Some input_settings
  /\ added_lines
       (LineRequest.build
          (LineConfig.GetConfig (LineConfig.calls five_then_two LineConfig.new)) [3])
     = [(3, input_settings)]
  /\ input_settings <> output_settings.
Proof.
  repeat split; try reflexivity. discriminate.
Qed.

(* ===================================================================== *)
(** ** LineConfig: setters and offset selection *)
(* ===================================================================== *)

Lemma ensure_result c :
  snd (LineConfig.EnsureSettingsForCurrentOffset c)
  = match OffsetMap.find (LineConfig.current_offset_ c) (LineConfig.settings_map_ c) with
    | Some _ => c
    | None => LineConfig.store_settings default_settings c
    end.
Proof.
  unfold LineConfig.EnsureSettingsForCurrentOffset. now destruct (OffsetMap.find _ _).
Qed.

(** What every string setter does with a string it does not know. *)
Lemma unrecognized_string st s rest c :
  LineConfig.recognized st s = false ->
  exists msg,
    LineConfig.call_setter st (String s :: rest) c
    = (Throw (TypeError msg), snd (LineConfig.EnsureSettingsForCurrentOffset c)).
Proof.
  intros Hr.
  destruct st; simpl in *; repeat (apply orb_false_iff in Hr; destruct Hr as [Hr ?]).
  - unfold LineConfig.SetDirection.
    destruct (LineConfig.EnsureSettingsForCurrentOffset c) as [s0 c1].
    rewrite Hr, H. eexists; reflexivity.
  - unfold LineConfig.SetEdge.
    destruct (LineConfig.EnsureSettingsForCurrentOffset c) as [s0 c1].
    rewrite Hr, H, H0, H1. eexists; reflexivity.
  - unfold LineConfig.SetDrive.
    destruct (LineConfig.EnsureSettingsForCurrentOffset c) as [s0 c1].
    rewrite Hr, H, H0. eexists; reflexivity.
  - unfold LineConfig.SetBias.
    destruct (LineConfig.EnsureSettingsForCurrentOffset c) as [s0 c1].
    rewrite Hr, H, H0, H1. eexists; reflexivity.
Qed.

(** C3 (as amended).  Each of the four string setters, given a string it
    does not recognize, throws a [TypeError] (a validation error).  When
    the current offset already has a settings entry the store is left as
    it was.  When it has none, the setter has by then created a default
    entry for the current offset, in its own map and in the line
    configuration, and that entry stays.  In both cases the cursor and
    every entry that existed before keep their values. *)
Theorem unrecognized_string_keeps_existing_entries
  (st : LineConfig.Setter) (s : string) (rest : list Value) (c : LineConfig.t) :
  LineConfig.recognized st s = false ->
  synced c ->
  fails_with (fst (LineConfig.call_setter st (String s :: rest) c)) ValidationError
  /\ snd (LineConfig.call_setter st (String s :: rest) c)
     = match OffsetMap.find (LineConfig.current_offset_ c) (LineConfig.settings_map_ c) with
       | Some _ => c
       | None => LineConfig.store_settings default_settings c
       end
  /\ LineConfig.current_offset_ (snd (LineConfig.call_setter st (String s :: rest) c))
     = LineConfig.current_offset_ c
  /\ forall o s0,
       OffsetMap.find o (LineConfig.settings_map_ c) = Some s0 ->
       OffsetMap.find o (LineConfig.settings_map_
                           (snd (LineConfig.call_setter st (String s :: rest) c))) = Some s0
       /\ OffsetMap.find o (LineConfig.config_
                              (snd (LineConfig.call_setter st (String s :: rest) c))) = Some s0.
Proof.
  intros Hr Hsync.
  destruct (unrecognized_string st s rest c Hr) as [msg Hcall].
  rewrite Hcall. simpl. rewrite ensure_result.
  split; [exists (TypeError msg); now split|].
  split; [reflexivity|].
  destruct (OffsetMap.find (LineConfig.current_offset_ c) (LineConfig.settings_map_ c))
    as [cur|] eqn:Hcur.
  - split; [reflexivity|]. intros o s0 Ho. split; [assumption|].
    unfold synced in Hsync. now rewrite <- Hsync.
  - split; [reflexivity|]. intros o s0 Ho.
    assert (Hne : LineConfig.current_offset_ c <> o).
    { intros Heq. rewrite Heq in Hcur. rewrite Hcur in Ho. discriminate. }
    simpl. unfold config_add_line_settings.
    rewrite !find_insert_ne by assumption.
    split; [assumption|]. unfold synced in Hsync. now rewrite <- Hsync.
Qed.

Lemma unrecognized_string_keeps_existing_entries_witness :
  LineConfig.recognized LineConfig.Drive "sideways" = false
  /\ synced (LineConfig.calls five_then_two LineConfig.new)
  /\ snd (LineConfig.call_setter LineConfig.Drive [String "sideways"]
            (LineConfig.calls five_then_two LineConfig.new))
     = LineConfig.calls five_then_two LineConfig.new.
Proof.
  assert (Hr : LineConfig.recognized LineConfig.Drive "sideways" = false) by reflexivity.
  assert (Hs : synced (LineConfig.calls five_then_two LineConfig.new)) by reflexivity.
  split; [exact Hr|]. split; [exact Hs|].
  destruct (unrecognized_string_keeps_existing_entries
              LineConfig.Drive "sideways" [] _ Hr Hs) as (_ & H & _).
  exact H.
Defined.

(** C3 (as stated) fails.  On a fresh [LineConfig], whose cursor is
    offset 0, [setDrive("sideways")] throws the [TypeError] and leaves a
    default entry for offset 0 in both maps of the store. *)
Lemma rejected_drive_string_creates_an_entry :
  fst (LineConfig.SetDrive [String "sideways"] LineConfig.new)
  = Throw (TypeError "Invalid drive: must be 'push_pull', 'open_drain', or 'open_source'")
  /\ LineConfig.settings_map_ LineConfig.new = []
  /\ LineConfig.settings_map_ (snd (LineConfig.SetDrive [String "sideways"] LineConfig.new))
     = [(0, default_settings)]
  /\ LineConfig.GetConfig (snd (LineConfig.SetDrive [String "sideways"] LineConfig.new))
     = [(0, default_settings)]
  /\ snd (LineConfig.SetDrive [String "sideways"] LineConfig.new) <> LineConfig.new.
Proof.
  repeat split; try reflexivity. discriminate.
Qed.




(* ===================================================================== *)
(** ** LineRequest: values and release *)
(* ===================================================================== *)

Lemma set_value_failure_is_device_error what :
  classify (Error ("Failed to set value: " ++ what)) = DeviceError.
Proof. reflexivity. Qed.

(** [SetValue] on well-typed arguments, by cases. *)
Lemma SetValue_cases h z v rest :
  LineRequest.SetValue (Number z :: Number v :: rest) h
  = match LineRequest.request_ h with
    | None => Throw (Error "Line request is not active")
    | Some r =>
        match lr_set_value r (Uint32Value z)
                (if (Int32Value v =? 0)%Z then INACTIVE else ACTIVE) with
        | inl what => Throw (Error ("Failed to set value: " ++ what))
        | inr _ => Return Undefined
        end
    end.
Proof. reflexivity. Qed.

(** C6 (as amended).  [setValue] fails with a state error exactly when
    the handle is not live.  On a live handle the wrapper makes no check
    of its own: whatever the device library refuses, a write to an offset
    that is not an output included, comes back as [Failed to set value:]
    followed by the device's message, a device error; and a device error
    is reported only when the device library has refused the write. *)
Theorem set_value_error_kinds
  (h : LineRequest.t) (z v : Z) (rest : list Value) :
  (fails_with (LineRequest.SetValue (Number z :: Number v :: rest) h) StateError
   <-> LineRequest.request_ h = None)
  /\ (fails_with (LineRequest.SetValue (Number z :: Number v :: rest) h) DeviceError
      <-> exists r what,
            LineRequest.request_ h = Some r
            /\ lr_set_value r (Uint32Value z)
                 (if (Int32Value v =? 0)%Z then INACTIVE else ACTIVE) = inl what
            /\ LineRequest.SetValue (Number z :: Number v :: rest) h
               = Throw (Error ("Failed to set value: " ++ what)))
  /\ (LineRequest.request_ h = None
      \/ LineRequest.SetValue (Number z :: Number v :: rest) h = Return Undefined
      \/ fails_with (LineRequest.SetValue (Number z :: Number v :: rest) h) DeviceError).
Proof.
  rewrite SetValue_cases.
  destruct (LineRequest.request_ h) as [r|].
  - destruct (lr_set_value r _ _) as [what|[]] eqn:Hset.
    + split; [|split].
      * split; [|discriminate].
        intros (e & [= <-] & Hk). cbn in Hk. discriminate.
      * split.
        -- intros _. exists r, what. split; [reflexivity|]. split; [exact Hset|reflexivity].
        -- intros _. exists (Error ("Failed to set value: " ++ what)). now split.
      * right. right. exists (Error ("Failed to set value: " ++ what)). now split.
    + split; [|split].
      * split; [|discriminate]. intros (e & Hthrow & _). discriminate.
      * split.
        -- intros (e & Hthrow & _). discriminate.
        -- intros (r' & what & [= <-] & Hw & _). congruence.
      * right. now left.
  - split; [|split].
    + split; [reflexivity|]. intros _. exists (Error "Line request is not active"). now split.
    + split.
      * intros (e & [= <-] & Hk). discriminate.
      * intros (r & what & Hr & _). discriminate.
    + now left.
Qed.

(** C6 (as stated) fails.  The handle is live and offset 3 is requested
    as an input; writing to it is refused by the device and the wrapper
    reports that as a device error, not as a state error. *)
Lemma set_value_on_input_line_is_device_error :
  LineRequest.GetRequest input_handle <> None
  /\ LineRequest.output_configured input_handle 3 = false
  /\ LineRequest.SetValue [Number 3; Number 1] input_handle
     = Throw (Error "Failed to set value: Operation not permitted")
  /\ classify (Error "Failed to set value: Operation not permitted") = DeviceError
  /\ ~ fails_with (LineRequest.SetValue [Number 3; Number 1] input_handle) StateError.
Proof.
  split; [discriminate|]. repeat split.
  intros (e & [= <-] & Hk). discriminate.
Qed.

Lemma released_calls ks h :
  LineRequest.request_ h = None ->
  Forall well_typed ks ->
  snd (LineRequest.calls ks h) = h
  /\ Forall2 (fun k r => match k with
                         | LineRequest.release _ => r = Return Undefined
                         | _ => r = Throw (Error "Line request is not active")
                         end) ks (fst (LineRequest.calls ks h)).
Proof.
  intros Hnone Hwt. induction Hwt as [|k rest Hk Hrest IH]; simpl.
  - split; [reflexivity|constructor].
  - assert (Hcall : snd (LineRequest.call k h) = h
                    /\ match k with
                       | LineRequest.release _ => fst (LineRequest.call k h) = Return Undefined
                       | _ => fst (LineRequest.call k h)
                              = Throw (Error "Line request is not active")
                       end).
    { destruct k as [info|info|info]; simpl in *.
      - destruct info as [|[] ?]; try contradiction.
        unfold LineRequest.GetValue. now rewrite Hnone.
      - destruct info as [|[] [|[] ?]]; try contradiction.
        rewrite SetValue_cases. now rewrite Hnone.
      - unfold LineRequest.Release. now rewrite Hnone. }
    destruct (LineRequest.call k h) as [r h1]. simpl in Hcall. destruct Hcall as [-> Hr].
    destruct (LineRequest.calls rest h) as [rs h2]. simpl in *. destruct IH as [-> IH].
    split; [reflexivity|]. constructor; [|assumption].
    destruct k; assumption.
Qed.

(** C7.  [release()] returns normally and empties the handle.  From then
    on, whatever sequence of well-typed calls follows, every [getValue]
    and every [setValue] throws [Line request is not active], a state
    error, every further [release()] returns normally, and the handle
    stays exactly as the first release left it. *)
Theorem released_handle_rejects_values
  (h : LineRequest.t) (info : list Value) (ks : list LineRequest.Call) :
  Forall well_typed ks ->
  fst (LineRequest.Release info h) = Return Undefined
  /\ LineRequest.GetRequest (snd (LineRequest.Release info h)) = None
  /\ snd (LineRequest.calls ks (snd (LineRequest.Release info h)))
     = snd (LineRequest.Release info h)
  /\ Forall2 (fun k r => match k with
                         | LineRequest.release _ => r = Return Undefined
                         | _ => r = Throw (Error "Line request is not active")
                         end)
       ks (fst (LineRequest.calls ks (snd (LineRequest.Release info h))))
  /\ classify (Error "Line request is not active") = StateError.
Proof.
  intros Hwt.
  assert (Hrel : fst (LineRequest.Release info h) = Return Undefined
                 /\ LineRequest.request_ (snd (LineRequest.Release info h)) = None).
  { unfold LineRequest.Release. destruct (LineRequest.request_ h) eqn:Hr; simpl; auto. }
  destruct Hrel as [Hret Hnone].
  destruct (released_calls ks _ Hnone Hwt) as [Hsame Hall].
  repeat split; assumption.
Qed.

Lemma released_handle_rejects_values_witness :
  Forall well_typed
    [LineRequest.getValue [Number 3]; LineRequest.release [];
     LineRequest.setValue [Number 3; Number 1]]
  /\ fst (LineRequest.calls
            [LineRequest.getValue [Number 3]; LineRequest.release [];
             LineRequest.setValue [Number 3; Number 1]]
            (snd (LineRequest.Release [] input_handle)))
     = [ Throw (Error "Line request is not active"); Return Undefined;
         Throw (Error "Line request is not active") ].
Proof.
  assert (Hwt : Forall well_typed
                  [LineRequest.getValue [Number 3]; LineRequest.release [];
                   LineRequest.setValue [Number 3; Number 1]]).
  { repeat constructor. }
  split; [exact Hwt|].
  destruct (released_handle_rejects_values input_handle [] _ Hwt) as (_ & _ & _ & H & _).
  inversion H as [|k1 r1 ks1 rs1 H1 T1 E1 E2]; subst.
  inversion T1 as [|k2 r2 ks2 rs2 H2 T2 E3 E4]; subst.
  inversion T2 as [|k3 r3 ks3 rs3 H3 T3 E5 E6]; subst.
  inversion T3; subst.
  reflexivity.
Defined.

(* ===================================================================== *)
(** ** Chip: close *)
(* ===================================================================== *)

Lemma closed_calls ks c :
  Chip.chip_ c = None ->
  snd (Chip.calls ks c) = c
  /\ Forall2 (fun k r => match k with
                         | Chip.close _ => r = Return Undefined
                         | _ => r = Throw (Error "Chip is closed")
                         end) ks (fst (Chip.calls ks c)).
Proof.
  intros Hnone. induction ks as [|k rest IH]; simpl.
  - split; [reflexivity|constructor].
  - assert (Hcall : snd (Chip.call k c) = c
                    /\ match k with
                       | Chip.close _ => fst (Chip.call k c) = Return Undefined
                       | _ => fst (Chip.call k c) = Throw (Error "Chip is closed")
                       end).
    { destruct k as [info|info|info|info]; simpl;
        unfold Chip.GetNumLines, Chip.GetLineInfo, Chip.GetLabel, Chip.Close;
        rewrite Hnone; auto. }
    destruct (Chip.call k c) as [r c1]. simpl in Hcall. destruct Hcall as [-> Hr].
    destruct (Chip.calls rest c) as [rs c2]. simpl in *. destruct IH as [-> IH].
    split; [reflexivity|]. constructor; [|assumption].
    destruct k; assumption.
Qed.

(** C8.  [close()] returns normally and empties the chip.  From then on,
    whatever sequence of calls follows and whatever their arguments, every
    [getNumLines], [getLabel] and [getLineInfo] throws [Chip is closed], a
    state error, every further [close()] returns normally, and the chip
    stays closed. *)
Theorem closed_chip_rejects_queries
  (c : Chip.t) (info : list Value) (ks : list Chip.Call) :
  fst (Chip.Close info c) = Return Undefined
  /\ Chip.GetChip (snd (Chip.Close info c)) = None
  /\ snd (Chip.calls ks (snd (Chip.Close info c))) = snd (Chip.Close info c)
  /\ Forall2 (fun k r => match k with
                         | Chip.close _ => r = Return Undefined
                         | _ => r = Throw (Error "Chip is closed")
                         end)
       ks (fst (Chip.calls ks (snd (Chip.Close info c))))
  /\ classify (Error "Chip is closed") = StateError.
Proof.
  assert (Hcl : fst (Chip.Close info c) = Return Undefined
                /\ Chip.chip_ (snd (Chip.Close info c)) = None).
  { unfold Chip.Close. destruct (Chip.chip_ c) eqn:Hc; simpl; auto. }
  destruct Hcl as [Hret Hnone].
  destruct (closed_calls ks _ Hnone) as [Hsame Hall].
  repeat split; assumption.
Qed.

(* ===================================================================== *)
(** ** Line: watch, export and the calls that stop the watch *)
(* ===================================================================== *)

Lemma StopWatchThread_watching l : Line.watching_ (Line.StopWatchThread l) = false.
Proof.
  unfold Line.StopWatchThread.
  destruct (Line.watching_ l) eqn:Hw; [destruct (Line.watch_thread_ l)|]; simpl; auto.
Qed.

Lemma StopWatchThread_thread l :
  Line.watching_ l = true -> Line.watch_thread_ (Line.StopWatchThread l) = Line.not_a_thread.
Proof.
  intros Hw. unfold Line.StopWatchThread. rewrite Hw.
  now destruct (Line.watch_thread_ l).
Qed.


Lemma threads_started_app l extra :
  (forall e, In e extra -> e <> Line.thread_started) ->
  List.length (filter (fun e => match e with Line.thread_started => true | _ => false end)
                      (Line.effects l ++ extra))
  = threads_started l.
Proof.
  intros Hno. unfold threads_started. rewrite filter_app, length_app.
  assert (Hz : filter (fun e => match e with Line.thread_started => true | _ => false end)
                      extra = []).
  { induction extra as [|e rest IH]; simpl; [reflexivity|].
    destruct e; try (apply IH; intros e' He'; apply Hno; now right).
    exfalso. apply (Hno Line.thread_started); [now left|reflexivity]. }
  rewrite Hz. simpl. lia.
Qed.

Lemma StopWatchThread_threads l :
  threads_started (Line.StopWatchThread l) = threads_started l.
Proof.
  unfold Line.StopWatchThread.
  destruct (Line.watching_ l); [destruct (Line.watch_thread_ l)|]; simpl; try reflexivity.
  - unfold threads_started at 1. simpl. apply threads_started_app.
    intros e [<-|[]]; discriminate.
  - unfold threads_started at 1. simpl. apply threads_started_app.
    intros e [<-|[<-|[<-|[]]]]; discriminate.
Qed.

(** [Watch] on an exported line that is watching. *)
Lemma Watch_while_watching l callback rest :
  Line.is_exported l = true -> Line.watching_ l = true ->
  Line.Watch (Function callback :: rest) l
  = (Return Undefined,
     {| Line.chip_ := Line.chip_ l; Line.offset_ := Line.offset_ l;
        Line.request_ := Line.request_ l; Line.exported_ := Line.exported_ l;
        Line.watch_thread_ := Line.joinable; Line.watching_ := true;
        Line.tsfn_ := Line.live_tsfn callback;
        Line.effects := (Line.effects (Line.StopWatchThread l)
                         ++ [Line.tsfn_created callback]) ++ [Line.thread_started] |}).
Proof.
  intros He Hw. unfold Line.Watch. rewrite He. cbv zeta. simpl.
  rewrite (StopWatchThread_thread l Hw).
  unfold Line.StopWatchThread. rewrite Hw.
  destruct (Line.watch_thread_ l); reflexivity.
Qed.

(** C2 (as amended).  On an exported line that is watching, [watch]
    called again does not fail: it stops the loop that is running (the
    flag is cleared and, the thread being joinable, it is joined and the
    old thread-safe function released), installs the new callback, sets
    the flag again and starts one more background thread.  On a line that
    is not exported [watch] throws [Line is not exported], a state error,
    and changes nothing. *)
Theorem watch_again_restarts_the_loop
  (l : Line.t) (callback : nat) (rest : list Value) :
  Line.is_exported l = true ->
  Line.watching_ l = true ->
  fst (Line.Watch (Function callback :: rest) l) = Return Undefined
  /\ Line.watching_ (snd (Line.Watch (Function callback :: rest) l)) = true
  /\ Line.watch_thread_ (snd (Line.Watch (Function callback :: rest) l)) = Line.joinable
  /\ Line.tsfn_ (snd (Line.Watch (Function callback :: rest) l)) = Line.live_tsfn callback
  /\ threads_started (snd (Line.Watch (Function callback :: rest) l))
     = S (threads_started l)
  /\ Line.effects (snd (Line.Watch (Function callback :: rest) l))
     = ((Line.effects l
         ++ match Line.watch_thread_ l with
            | Line.joinable => [Line.cv_notified; Line.thread_joined; Line.tsfn_released]
            | Line.not_a_thread => [Line.tsfn_released]
            end)
        ++ [Line.tsfn_created callback; Line.thread_started])%list
  /\ forall l2 callback2 rest2,
       Line.is_exported l2 = false ->
       Line.Watch (Function callback2 :: rest2) l2
       = (Throw (Error "Line is not exported"), l2)
       /\ classify (Error "Line is not exported") = StateError.
Proof.
  intros He Hw. rewrite (Watch_while_watching l callback rest He Hw). simpl.
  repeat split.
  - unfold threads_started at 1. simpl.
    rewrite filter_app, length_app. simpl.
    pose proof (StopWatchThread_threads l) as Hs.
    pose proof (threads_started_app (Line.StopWatchThread l)
                  [Line.tsfn_created callback]) as Ha.
    rewrite Ha by (intros e [<-|[]]; discriminate). lia.
  - unfold Line.StopWatchThread. rewrite Hw.
    destruct (Line.watch_thread_ l); simpl; now rewrite <- app_assoc.
  - unfold Line.Watch. now rewrite H.
Qed.

Lemma watch_again_restarts_the_loop_witness :
  Line.is_exported watching_line = true
  /\ Line.watching_ watching_line = true
  /\ fst (Line.Watch [Function 2] watching_line) = Return Undefined
  /\ Line.Watch [Function 2] idle_line = (Throw (Error "Line is not exported"), idle_line).
Proof.
  assert (He : Line.is_exported watching_line = true) by reflexivity.
  assert (Hw : Line.watching_ watching_line = true) by reflexivity.
  split; [exact He|]. split; [exact Hw|].
  destruct (watch_again_restarts_the_loop watching_line 2 [] He Hw)
    as (Hr & _ & _ & _ & _ & _ & Hn).
  split; [exact Hr|].
  destruct (Hn idle_line 2%nat [] eq_refl) as [Hthrow _]. exact Hthrow.
Defined.

(** C2 (as stated) fails.  A line is created, exported and watched; it
    is watching and one background thread has been started.  A second
    [watch], with no stop in between, returns normally and a second
    background thread has been started. *)
Lemma second_watch_starts_a_second_loop :
  Line.New [Object ChipClass 0; Number 4] = Return idle_line
  /\ Line.watching_ watching_line = true
  /\ threads_started watching_line = 1%nat
  /\ fst (Line.Watch [Function 2] watching_line) = Return Undefined
  /\ threads_started (snd (Line.Watch [Function 2] watching_line)) = 2%nat
  /\ ~ fails_with (fst (Line.Watch [Function 2] watching_line)) StateError.
Proof.
  repeat split. intros (e & Hthrow & _). discriminate.
Qed.

Lemma unbind_watch_state requests l :
  Line.watching_ (snd (snd (Line.unbind requests l))) = Line.watching_ l
  /\ Line.watch_thread_ (snd (snd (Line.unbind requests l))) = Line.watch_thread_ l
  /\ Line.tsfn_ (snd (snd (Line.unbind requests l))) = Line.tsfn_ l
  /\ Line.exported_ (snd (snd (Line.unbind requests l))) = false.
Proof.
  unfold Line.unbind. destruct (Line.exported_ l) eqn:He; simpl; auto.
  destruct (Line.request_ l); simpl; auto.
Qed.

Lemma unbind_unexported requests l :
  Line.exported_ l = false -> Line.unbind requests l = (None, (requests, l)).
Proof. intros He. unfold Line.unbind. now rewrite He. Qed.

(** Unbinding a line from an object that exists deletes that object. *)
Lemma unbind_bound requests l bound h :
  Line.exported_ l = true ->
  Line.request_ l = Some bound ->
  requests bound = Some h ->
  Line.unbind requests l
  = (None,
     (Line.delete bound requests,
      {| Line.chip_ := Line.chip_ l; Line.offset_ := Line.offset_ l;
         Line.request_ := None; Line.exported_ := false;
         Line.watch_thread_ := Line.watch_thread_ l; Line.watching_ := Line.watching_ l;
         Line.tsfn_ := Line.tsfn_ l;
         Line.effects := Line.effects l ++ [Line.handle_reset bound] |})).
Proof. intros He Hr Hh. unfold Line.unbind. now rewrite He, Hr, Hh. Qed.

(** Stopping the watch of a line that watches and owns its thread. *)
Lemma StopWatchThread_running l callback :
  Line.watching_ l = true ->
  Line.watch_thread_ l = Line.joinable ->
  Line.tsfn_ l = Line.live_tsfn callback ->
  Line.StopWatchThread l
  = {| Line.chip_ := Line.chip_ l; Line.offset_ := Line.offset_ l;
       Line.request_ := Line.request_ l; Line.exported_ := Line.exported_ l;
       Line.watch_thread_ := Line.not_a_thread; Line.watching_ := false;
       Line.tsfn_ := Line.released_tsfn callback;
       Line.effects := Line.effects l
                       ++ [Line.cv_notified; Line.thread_joined; Line.tsfn_released] |}.
Proof. intros Hw Ht Hf. unfold Line.StopWatchThread. now rewrite Hw, Ht, Hf. Qed.

(** A call other than [unexport], [unwatch] and the destructor leaves a
    watching line watching. *)
Lemma other_calls_keep_watching requests k l :
  Line.stops_watch k = false ->
  Line.watching_ l = true ->
  Line.watching_ (snd (snd (Line.call requests k l))) = true.
Proof.
  intros Hk Hw. destruct k as [info|info|info|info|info|info|]; simpl in Hk;
    try discriminate Hk; cbn [Line.call snd].
  - exact Hw.
  - exact Hw.
  - unfold Line.Export. destruct info as [|v rest]; simpl; [assumption|].
    destruct (IsObject v); simpl; [|assumption].
    destruct v as [| | | | | | |cls ref|]; simpl; try assumption.
    destruct cls; simpl; try assumption.
    pose proof (proj1 (unbind_watch_state requests l)) as Hu.
    destruct (Line.unbind requests l) as [[fatal|] [requests1 l1]]; simpl in *; congruence.
  - destruct info as [|v rest]; [exact Hw|].
    destruct v; try exact Hw.
    destruct (Line.is_exported l) eqn:He.
    + now rewrite (Watch_while_watching l id rest He Hw).
    + unfold Line.Watch. rewrite He. exact Hw.
Qed.

(** C10.  The line is exported and bound to the [LineRequest] object at
    [bound], which exists, and [export] is called with another
    [LineRequest] object, at [ref].  Then [export] returns normally; the
    line is bound to [ref]; the object at [bound], which the line owned,
    has been deleted and every other object is as it was; the watching
    flag, the thread and the thread-safe function are what they were, and
    nothing is joined or released: the one effect is the reset of the old
    handle.  On a line that watches and owns its thread, [unwatch] clears
    the flag, notifies and joins the thread and releases the thread-safe
    function, and [unexport] and the destructor do the same and only then
    reset the handle.  Every other call leaves a watching line watching
    ([watch] itself replaces the running loop by a new one). *)
Theorem export_keeps_the_watch_state
  (requests : Line.Heap) (l : Line.t) (bound ref : nat) (held h : LineRequest.t)
  (rest : list Value) :
  Line.exported_ l = true ->
  Line.request_ l = Some bound ->
  requests bound = Some held ->
  Nat.eqb ref bound = false ->
  requests ref = Some h ->
  Line.Export (Object LineRequestClass ref :: rest) requests l
  = (Return Undefined,
     (Line.delete bound requests,
      {| Line.chip_ := Line.chip_ l; Line.offset_ := Line.offset_ l;
         Line.request_ := Some ref; Line.exported_ := true;
         Line.watch_thread_ := Line.watch_thread_ l; Line.watching_ := Line.watching_ l;
         Line.tsfn_ := Line.tsfn_ l;
         Line.effects := Line.effects l ++ [Line.handle_reset bound] |}))
  /\ Line.delete bound requests bound = None
  /\ Line.delete bound requests ref = Some h
  /\ (forall other, other <> bound -> Line.delete bound requests other = requests other)
  /\ (forall k requests2 l2 bound2 held2 callback,
        Line.stops_watch k = true ->
        Line.watching_ l2 = true ->
        Line.watch_thread_ l2 = Line.joinable ->
        Line.tsfn_ l2 = Line.live_tsfn callback ->
        Line.exported_ l2 = true ->
        Line.request_ l2 = Some bound2 ->
        requests2 bound2 = Some held2 ->
        Line.call requests2 k l2
        = (Return Undefined,
           match k with
           | Line.unwatch _ =>
               (requests2,
                {| Line.chip_ := Line.chip_ l2; Line.offset_ := Line.offset_ l2;
                   Line.request_ := Some bound2; Line.exported_ := true;
                   Line.watch_thread_ := Line.not_a_thread; Line.watching_ := false;
                   Line.tsfn_ := Line.released_tsfn callback;
                   Line.effects :=
                     Line.effects l2
                     ++ [Line.cv_notified; Line.thread_joined; Line.tsfn_released] |})
           | _ =>
               (Line.delete bound2 requests2,
                {| Line.chip_ := Line.chip_ l2; Line.offset_ := Line.offset_ l2;
                   Line.request_ := None; Line.exported_ := false;
                   Line.watch_thread_ := Line.not_a_thread; Line.watching_ := false;
                   Line.tsfn_ := Line.released_tsfn callback;
                   Line.effects :=
                     (Line.effects l2
                      ++ [Line.cv_notified; Line.thread_joined; Line.tsfn_released])
                     ++ [Line.handle_reset bound2] |})
           end))
  /\ (forall k requests2 l2,
        Line.stops_watch k = false ->
        Line.watching_ l2 = true ->
        Line.watching_ (snd (snd (Line.call requests2 k l2))) = true).
Proof.
  intros He Hr Hheld Hne Hh.
  split; [|split; [|split; [|split; [|split]]]].
  - unfold Line.Export. simpl. now rewrite (unbind_bound requests l bound held He Hr Hheld).
  - unfold Line.delete. now rewrite Nat.eqb_refl.
  - unfold Line.delete. now rewrite Hne.
  - intros other Ho. unfold Line.delete.
    destruct (Nat.eqb other bound) eqn:E; [|reflexivity].
    apply Nat.eqb_eq in E. contradiction.
  - intros k requests2 l2 bound2 held2 callback Hk Hw Ht Hf He2 Hr2 Hh2.
    pose proof (StopWatchThread_running l2 callback Hw Ht Hf) as Hstop.
    assert (Hunbind :
              Line.unbind requests2 (Line.StopWatchThread l2)
              = (None,
                 (Line.delete bound2 requests2,
                  {| Line.chip_ := Line.chip_ l2; Line.offset_ := Line.offset_ l2;
                     Line.request_ := None; Line.exported_ := false;
                     Line.watch_thread_ := Line.not_a_thread; Line.watching_ := false;
                     Line.tsfn_ := Line.released_tsfn callback;
                     Line.effects :=
                       (Line.effects l2
                        ++ [Line.cv_notified; Line.thread_joined; Line.tsfn_released])
                       ++ [Line.handle_reset bound2] |}))).
    { rewrite Hstop. unfold Line.unbind. simpl. now rewrite He2, Hr2, Hh2. }
    destruct k as [info|info|info|info|info|info|]; simpl in Hk; try discriminate Hk;
      cbn [Line.call].
    + unfold Line.Unexport. now rewrite Hunbind.
    + unfold Line.Unwatch. now rewrite Hstop, He2, Hr2.
    + unfold Line.Destroy. now rewrite Hunbind.
  - intros k requests2 l2. apply other_calls_keep_watching.
Qed.

Lemma export_keeps_the_watch_state_witness :
  Line.exported_ watching_line = true
  /\ Line.request_ watching_line = Some 7%nat
  /\ two_requests 7%nat = Some input_handle
  /\ two_requests 8%nat = Some input_handle
  /\ Line.watching_ watching_line = true
  /\ Line.Export [Object LineRequestClass 8] two_requests watching_line
     = (Return Undefined,
        (Line.delete 7 two_requests,
         {| Line.chip_ := 0%nat; Line.offset_ := 4; Line.request_ := Some 8%nat;
            Line.exported_ := true; Line.watch_thread_ := Line.joinable;
            Line.watching_ := true; Line.tsfn_ := Line.live_tsfn 1;
            Line.effects := [Line.tsfn_created 1; Line.thread_started;
                             Line.handle_reset 7] |}))
  /\ Line.Unexport [] two_requests watching_line
     = (Return Undefined,
        (Line.delete 7 two_requests,
         {| Line.chip_ := 0%nat; Line.offset_ := 4; Line.request_ := None;
            Line.exported_ := false; Line.watch_thread_ := Line.not_a_thread;
            Line.watching_ := false; Line.tsfn_ := Line.released_tsfn 1;
            Line.effects := [Line.tsfn_created 1; Line.thread_started;
                             Line.cv_notified; Line.thread_joined; Line.tsfn_released;
                             Line.handle_reset 7] |})).
Proof.
  assert (He : Line.exported_ watching_line = true) by reflexivity.
  assert (Hr : Line.request_ watching_line = Some 7%nat) by reflexivity.
  assert (H7 : two_requests 7%nat = Some input_handle) by reflexivity.
  assert (H8 : two_requests 8%nat = Some input_handle) by reflexivity.
  assert (Hw : Line.watching_ watching_line = true) by reflexivity.
  split; [exact He|]. split; [exact Hr|]. split; [exact H7|]. split; [exact H8|].
  split; [exact Hw|].
  destruct (export_keeps_the_watch_state two_requests watching_line 7 8
              input_handle input_handle [] He Hr H7 eq_refl H8)
    as (Hexport & _ & _ & _ & Hstop & _).
  split; [exact Hexport|].
  exact (Hstop (Line.unexport []) two_requests watching_line 7%nat input_handle 1%nat
           eq_refl Hw eq_refl eq_refl He Hr H7).
Defined.

(* ===================================================================== *)
(** ** Line: the background loop *)
(* ===================================================================== *)

Lemma watch_loop_stopped rounds sent :
  Line.watch_loop rounds false sent
  = {| Line.delivered := sent; Line.watching_after := false; Line.status := Line.exited |}.
Proof. destruct rounds; reflexivity. Qed.

(** While the loop has not returned, the flag is set and everything it
    has sent is an event. *)
Lemma watch_loop_blocked rounds :
  forall w sent,
    Line.status (Line.watch_loop rounds w sent) = Line.blocked ->
    Line.watching_after (Line.watch_loop rounds w sent) = true
    /\ exists events,
         Forall is_event events
         /\ Line.delivered (Line.watch_loop rounds w sent) = (sent ++ events)%list.
Proof.
  induction rounds as [|r rest IH]; intros w sent; simpl.
  - destruct w; [|discriminate]. intros _. split; [reflexivity|].
    exists []. split; [constructor|now rewrite app_nil_r].
  - destruct w; simpl; [|discriminate].
    destruct (Line.stop_before r); simpl; [discriminate|].
    destruct (Line.stop_in_wait r); simpl.
    + destruct (Line.outcome r); rewrite watch_loop_stopped; discriminate.
    + destruct (Line.outcome r) as [|ty|what|what].
      * apply IH.
      * intros Hb. destruct (IH _ _ Hb) as (Hw & events & Hev & Hd).
        split; [assumption|].
        exists (Line.event (Line.edge_value ty) :: events).
        split; [constructor; [exact I|assumption]|].
        rewrite Hd. now rewrite <- app_assoc.
      * rewrite watch_loop_stopped. discriminate.
      * destruct (Line.stop_in_read r); simpl; rewrite watch_loop_stopped; discriminate.
Qed.

(** A run that has not returned goes on with the rounds that follow. *)
Lemma watch_loop_app pre more :
  forall w sent,
    Line.status (Line.watch_loop pre w sent) = Line.blocked ->
    Line.watch_loop (pre ++ more) w sent
    = Line.watch_loop more true (Line.delivered (Line.watch_loop pre w sent)).
Proof.
  induction pre as [|r rest IH]; intros w sent; simpl.
  - destruct w; [reflexivity|discriminate].
  - destruct w; simpl; [|discriminate].
    destruct (Line.stop_before r); simpl; [discriminate|].
    destruct (Line.stop_in_wait r); simpl.
    + destruct (Line.outcome r); rewrite watch_loop_stopped; discriminate.
    + destruct (Line.outcome r) as [|ty|what|what].
      * apply IH.
      * apply IH.
      * rewrite watch_loop_stopped. discriminate.
      * destruct (Line.stop_in_read r); simpl; rewrite watch_loop_stopped; discriminate.
Qed.

(** One round in which the device throws while the flag stays set. *)
Lemma watch_loop_error r rest sent what :
  Line.stop_before r = false ->
  Line.stop_in_wait r = false ->
  Line.outcome r = Line.wait_throws what
  \/ (Line.outcome r = Line.read_throws what /\ Line.stop_in_read r = false) ->
  Line.watch_loop (r :: rest) true sent
  = {| Line.delivered := sent ++ [Line.error Line.sliced_what];
       Line.watching_after := false; Line.status := Line.exited |}.
Proof.
  intros Hb Hw Ho. simpl. rewrite Hb, Hw. simpl.
  destruct Ho as [-> | [-> Hr]]; [|rewrite Hr; simpl]; apply watch_loop_stopped.
Qed.

(** Every run sends events only, or events and then one error; after an
    error the thread has returned with the flag cleared. *)
Lemma watch_loop_shape rounds :
  forall w sent,
  exists events,
    Forall is_event events
    /\ (Line.delivered (Line.watch_loop rounds w sent) = (sent ++ events)%list
        \/ Line.watch_loop rounds w sent
           = {| Line.delivered := (sent ++ events) ++ [Line.error Line.sliced_what];
                Line.watching_after := false; Line.status := Line.exited |}).
Proof.
  induction rounds as [|r rest IH]; intros w sent; simpl.
  - exists []. split; [constructor|]. left. now rewrite app_nil_r.
  - assert (Hnone : exists events : list Line.Notification,
               Forall is_event events
               /\ (sent = (sent ++ events)%list
                   \/ {| Line.delivered := sent; Line.watching_after := false;
                         Line.status := Line.exited |}
                      = {| Line.delivered := (sent ++ events) ++ [Line.error Line.sliced_what];
                           Line.watching_after := false; Line.status := Line.exited |})).
    { exists []. split; [constructor|]. left. now rewrite app_nil_r. }
    assert (Herr : exists events : list Line.Notification,
               Forall is_event events
               /\ (Line.delivered
                     (Line.watch_loop rest false (sent ++ [Line.error Line.sliced_what]))
                   = (sent ++ events)%list
                   \/ Line.watch_loop rest false (sent ++ [Line.error Line.sliced_what])
                      = {| Line.delivered := (sent ++ events) ++ [Line.error Line.sliced_what];
                           Line.watching_after := false; Line.status := Line.exited |})).
    { exists []. split; [constructor|]. right.
      rewrite watch_loop_stopped. now rewrite app_nil_r. }
    assert (Hevent : forall ty w',
               exists events : list Line.Notification,
                 Forall is_event events
                 /\ (Line.delivered
                       (Line.watch_loop rest w' (sent ++ [Line.event (Line.edge_value ty)]))
                     = (sent ++ events)%list
                     \/ Line.watch_loop rest w' (sent ++ [Line.event (Line.edge_value ty)])
                        = {| Line.delivered :=
                               (sent ++ events) ++ [Line.error Line.sliced_what];
                             Line.watching_after := false; Line.status := Line.exited |})).
    { intros ty w'.
      destruct (IH w' (sent ++ [Line.event (Line.edge_value ty)])%list)
        as (events & Hev & Hd).
      exists (Line.event (Line.edge_value ty) :: events).
      split; [constructor; [exact I|assumption]|].
      replace (sent ++ Line.event (Line.edge_value ty) :: events)%list
        with ((sent ++ [Line.event (Line.edge_value ty)]) ++ events)%list
        by now rewrite <- app_assoc.
      exact Hd. }
    destruct w; simpl; [|exact Hnone].
    destruct (Line.stop_before r); simpl; [exact Hnone|].
    destruct (Line.stop_in_wait r); simpl.
    + destruct (Line.outcome r); rewrite watch_loop_stopped; exact Hnone.
    + destruct (Line.outcome r) as [|ty|what|what].
      * apply IH.
      * apply Hevent.
      * apply Herr.
      * destruct (Line.stop_in_read r); simpl; [|apply Herr].
        rewrite watch_loop_stopped. exact Hnone.
Qed.

(** C4.  The thread runs on an exported line bound to a [LineRequest]
    object that exists and whose request is live, and after the rounds
    [pre] it is still inside the loop, the flag set.  If in the next round
    the device throws, out of the wait or out of the read, and the flag is
    still set when the handler reads it, then whatever rounds might follow:
    the thread has sent only events before, it sends one error, it clears
    the flag and returns, and nothing is sent after the error.  Moreover no
    run, whatever the rounds, sends more than one error or anything after
    an error.  Sending is the [BlockingCall] on the thread-safe function,
    which hands the calls to the callback in the order they were made.
    The error the callback receives is built from a copy of the caught
    exception whose type is [std::exception]: its message is that of the
    base class, whatever the device library threw. *)
Theorem device_error_is_sent_once_and_last
  (requests : Line.Heap) (l : Line.t) (ref : nat) (h : LineRequest.t) (g : line_request)
  (pre : list Line.Round) (r : Line.Round) (rest : list Line.Round) (what : string) :
  Line.request_ l = Some ref ->
  Line.exported_ l = true ->
  requests ref = Some h ->
  LineRequest.GetRequest h = Some g ->
  Line.status (Line.WatchThread requests false pre l) = Line.blocked ->
  Line.stop_before r = false ->
  Line.stop_in_wait r = false ->
  Line.outcome r = Line.wait_throws what
  \/ (Line.outcome r = Line.read_throws what /\ Line.stop_in_read r = false) ->
  Forall is_event (Line.delivered (Line.WatchThread requests false pre l))
  /\ Line.WatchThread requests false (pre ++ r :: rest) l
     = {| Line.delivered :=
            Line.delivered (Line.WatchThread requests false pre l)
            ++ [Line.error Line.sliced_what];
          Line.watching_after := false;
          Line.status := Line.exited |}
  /\ forall rounds,
     exists events,
       Forall is_event events
       /\ (Line.delivered (Line.WatchThread requests false rounds l) = events
           \/ Line.WatchThread requests false rounds l
              = {| Line.delivered := events ++ [Line.error Line.sliced_what];
                   Line.watching_after := false; Line.status := Line.exited |}).
Proof.
  intros Hreq Hexp Hh Hg Hblocked Hb Hw Ho.
  unfold Line.WatchThread in *. rewrite Hreq, Hexp, Hh, Hg in *.
  destruct (watch_loop_blocked _ _ _ Hblocked) as (_ & events & Hev & Hd).
  simpl in Hd. split; [now rewrite Hd|]. split.
  - rewrite (watch_loop_app pre (r :: rest) _ _ Hblocked).
    now apply (watch_loop_error r rest _ what).
  - intros rounds. exact (watch_loop_shape rounds (Line.watching_ l) []).
Qed.

Lemma device_error_is_sent_once_and_last_witness :
  Line.request_ watching_line = Some 7%nat
  /\ Line.exported_ watching_line = true
  /\ two_requests 7%nat = Some input_handle
  /\ LineRequest.GetRequest input_handle = Some (kernel_like_request [(3, input_settings)])
  /\ Line.status (Line.WatchThread two_requests false
                    [quiet_round (Line.edge_event RISING_EDGE); quiet_round Line.timed_out]
                    watching_line) = Line.blocked
  /\ Line.WatchThread two_requests false
       ([quiet_round (Line.edge_event RISING_EDGE); quiet_round Line.timed_out]
        ++ quiet_round (Line.wait_throws "Input/output error")
           :: [quiet_round (Line.edge_event FALLING_EDGE)])
       watching_line
     = {| Line.delivered := [Line.event 1; Line.error "std::exception"];
          Line.watching_after := false; Line.status := Line.exited |}.
Proof.
  assert (H1 : Line.request_ watching_line = Some 7%nat) by reflexivity.
  assert (H2 : Line.exported_ watching_line = true) by reflexivity.
  assert (H3 : two_requests 7%nat = Some input_handle) by reflexivity.
  assert (H4 : LineRequest.GetRequest input_handle
               = Some (kernel_like_request [(3, input_settings)])) by reflexivity.
  assert (H5 : Line.status
                 (Line.WatchThread two_requests false
                    [quiet_round (Line.edge_event RISING_EDGE); quiet_round Line.timed_out]
                    watching_line) = Line.blocked) by reflexivity.
  split; [exact H1|]. split; [exact H2|]. split; [exact H3|]. split; [exact H4|].
  split; [exact H5|].
  destruct (device_error_is_sent_once_and_last
              two_requests watching_line 7 input_handle
              (kernel_like_request [(3, input_settings)])
              [quiet_round (Line.edge_event RISING_EDGE); quiet_round Line.timed_out]
              (quiet_round (Line.wait_throws "Input/output error"))
              [quiet_round (Line.edge_event FALLING_EDGE)]
              "Input/output error"
              H1 H2 H3 H4 H5 eq_refl eq_refl (or_introl eq_refl))
    as (_ & H & _).
  exact H.
Defined.

(* ===================================================================== *)
(** ** LineConfig: further properties of the store *)
(* ===================================================================== *)

Lemma find_insert_kept {V : Type} (m : OffsetMap.t V) k v o :
  OffsetMap.find o m <> None -> OffsetMap.find o (OffsetMap.insert k v m) <> None.
Proof.
  intros Hm. destruct (N.eq_dec k o) as [->|Hne].
  - rewrite find_insert_eq. discriminate.
  - now rewrite find_insert_ne.
Qed.

Lemma ensure_cursor c :
  LineConfig.current_offset_ (snd (LineConfig.EnsureSettingsForCurrentOffset c))
  = LineConfig.current_offset_ c.
Proof. rewrite ensure_result. now destruct (OffsetMap.find _ _). Qed.

Lemma ensure_settings c :
  fst (LineConfig.EnsureSettingsForCurrentOffset c) = current_settings c
  /\ OffsetMap.find (LineConfig.current_offset_ c)
       (LineConfig.settings_map_ (snd (LineConfig.EnsureSettingsForCurrentOffset c)))
     = Some (current_settings c).
Proof.
  unfold LineConfig.EnsureSettingsForCurrentOffset, current_settings.
  destruct (OffsetMap.find _ _) eqn:Hf; simpl; [now split|].
  split; [reflexivity|apply find_insert_eq].
Qed.

Lemma ensure_frame c o :
  o <> LineConfig.current_offset_ c ->
  OffsetMap.find o (LineConfig.settings_map_ (snd (LineConfig.EnsureSettingsForCurrentOffset c)))
  = OffsetMap.find o (LineConfig.settings_map_ c)
  /\ OffsetMap.find o (LineConfig.config_ (snd (LineConfig.EnsureSettingsForCurrentOffset c)))
     = OffsetMap.find o (LineConfig.config_ c).
Proof.
  intros Hne. rewrite ensure_result.
  destruct (OffsetMap.find (LineConfig.current_offset_ c) (LineConfig.settings_map_ c));
    simpl; [now split|].
  unfold config_add_line_settings. split; apply find_insert_ne; congruence.
Qed.

Lemma ensure_kept c o :
  (OffsetMap.find o (LineConfig.settings_map_ c) <> None ->
   OffsetMap.find o (LineConfig.settings_map_
                       (snd (LineConfig.EnsureSettingsForCurrentOffset c))) <> None)
  /\ (OffsetMap.find o (LineConfig.config_ c) <> None ->
      OffsetMap.find o (LineConfig.config_
                          (snd (LineConfig.EnsureSettingsForCurrentOffset c))) <> None).
Proof.
  rewrite ensure_result.
  destruct (OffsetMap.find (LineConfig.current_offset_ c) (LineConfig.settings_map_ c));
    simpl; [now split|].
  split; apply find_insert_kept.
Qed.

(** Every method other than [setOffset] leaves the object as it was, or
    as [EnsureSettingsForCurrentOffset] leaves it, or stores there
    settings that differ from the ensured ones in the member of the method
    only; [setBias] may also fail after writing such settings to the entry
    of the wrapper alone. *)
Lemma setter_shape k c :
  is_set_offset k = false ->
  (snd (LineConfig.call k c) = c
   /\ exists msg, fst (LineConfig.call k c) = Throw (TypeError msg))
  \/ (snd (LineConfig.call k c) = snd (LineConfig.EnsureSettingsForCurrentOffset c)
      /\ exists msg, fst (LineConfig.call k c) = Throw (TypeError msg))
  \/ (exists s,
        snd (LineConfig.call k c)
        = LineConfig.update_config s
            (LineConfig.write_settings s (snd (LineConfig.EnsureSettingsForCurrentOffset c)))
        /\ fst (LineConfig.call k c) = Return Undefined
        /\ forall f, field_of_call k <> Some f ->
                     same_field f s (fst (LineConfig.EnsureSettingsForCurrentOffset c)))
  \/ (exists s what,
        snd (LineConfig.call k c)
        = LineConfig.write_settings s (snd (LineConfig.EnsureSettingsForCurrentOffset c))
        /\ fst (LineConfig.call k c) = Throw (Error ("Failed to set bias: " ++ what))
        /\ forall f, field_of_call k <> Some f ->
                     same_field f s (fst (LineConfig.EnsureSettingsForCurrentOffset c))).
Proof.
  intros Hk.
  destruct k as [info|info|info|info|info|info|info|info]; simpl in Hk; try discriminate;
    simpl; destruct info as [|[] rest]; simpl; eauto;
    destruct (LineConfig.EnsureSettingsForCurrentOffset c) as [s0 c1]; simpl;
    repeat (break_if; simpl); eauto;
    unfold LineConfig.store_bias, set_bias; simpl;
    first
      [ right; right; left; eexists; (split; [reflexivity|]); (split; [reflexivity|]);
        intros f Hf; destruct f; simpl; try reflexivity; congruence
      | right; right; right; eexists; eexists;
        (split; [reflexivity|]); (split; [reflexivity|]);
        intros f Hf; destruct f; simpl; try reflexivity; congruence ].
Qed.

Lemma set_offset_shape info c :
  (snd (LineConfig.SetOffset info c) = c
   /\ exists msg, fst (LineConfig.SetOffset info c) = Throw (TypeError msg))
  \/ exists z,
       snd (LineConfig.SetOffset info c)
       = snd (LineConfig.EnsureSettingsForCurrentOffset
                (LineConfig.with_current_offset (Uint32Value z) c))
       /\ fst (LineConfig.SetOffset info c) = Return Undefined.
Proof.
  unfold LineConfig.SetOffset.
  destruct info as [|[| | |z| | | | |] rest];
    try (left; split; [reflexivity|eexists; reflexivity]).
  right. exists z.
  destruct (LineConfig.EnsureSettingsForCurrentOffset _) as [s0 c2]. now split.
Qed.

Lemma write_back_frame s c o :
  o <> LineConfig.current_offset_ c ->
  OffsetMap.find o
    (LineConfig.settings_map_ (LineConfig.update_config s (LineConfig.write_settings s c)))
  = OffsetMap.find o (LineConfig.settings_map_ c)
  /\ OffsetMap.find o
       (LineConfig.config_ (LineConfig.update_config s (LineConfig.write_settings s c)))
     = OffsetMap.find o (LineConfig.config_ c).
Proof.
  intros Hne. simpl. unfold config_add_line_settings.
  split; apply find_insert_ne; congruence.
Qed.

Lemma call_cursor k c :
  is_set_offset k = false ->
  LineConfig.current_offset_ (snd (LineConfig.call k c)) = LineConfig.current_offset_ c.
Proof.
  intros Hk.
  destruct (setter_shape k c Hk)
    as [[-> _] | [[-> _] | [(s & -> & _) | (s & what & -> & _)]]].
  - reflexivity.
  - apply ensure_cursor.
  - simpl. apply ensure_cursor.
  - simpl. apply ensure_cursor.
Qed.

Lemma write_only_frame s c o :
  o <> LineConfig.current_offset_ c ->
  OffsetMap.find o (LineConfig.settings_map_ (LineConfig.write_settings s c))
  = OffsetMap.find o (LineConfig.settings_map_ c).
Proof. intros Hne. simpl. apply find_insert_ne. congruence. Qed.

(** X1.  A setter that returns normally has passed the settings of the
    current offset on to the line configuration: after the call the entry
    of the current offset in the line configuration handed to
    [LineRequest] exists and is equal to the entry in the map of the
    wrapper. *)
Theorem returned_setter_has_updated_the_config (k : LineConfig.Call) (c : LineConfig.t) :
  is_set_offset k = false ->
  fst (LineConfig.call k c) = Return Undefined ->
  exists s,
    OffsetMap.find (LineConfig.current_offset_ c)
      (LineConfig.GetConfig (snd (LineConfig.call k c))) = Some s
    /\ OffsetMap.find (LineConfig.current_offset_ c)
         (LineConfig.settings_map_ (snd (LineConfig.call k c))) = Some s.
Proof.
  intros Hk Hret. unfold LineConfig.GetConfig.
  destruct (setter_shape k c Hk)
    as [[_ [msg Hm]] | [[_ [msg Hm]] | [(s & Hs & _) | (s & what & _ & Hm & _)]]];
    try congruence.
  exists s. rewrite Hs. simpl. unfold config_add_line_settings.
  rewrite ensure_cursor. now rewrite !find_insert_eq.
Qed.

Lemma returned_setter_has_updated_the_config_witness :
  is_set_offset (LineConfig.setBias [String "pull_up"]) = false
  /\ fst (LineConfig.call (LineConfig.setBias [String "pull_up"])
            (LineConfig.calls five_then_two LineConfig.new)) = Return Undefined
  /\ exists s,
       OffsetMap.find 2
         (LineConfig.GetConfig
            (snd (LineConfig.call (LineConfig.setBias [String "pull_up"])
                    (LineConfig.calls five_then_two LineConfig.new)))) = Some s
       /\ OffsetMap.find 2
            (LineConfig.settings_map_
               (snd (LineConfig.call (LineConfig.setBias [String "pull_up"])
                       (LineConfig.calls five_then_two LineConfig.new)))) = Some s.
Proof.
  assert (H1 : is_set_offset (LineConfig.setBias [String "pull_up"]) = false) by reflexivity.
  assert (H2 : fst (LineConfig.call (LineConfig.setBias [String "pull_up"])
                      (LineConfig.calls five_then_two LineConfig.new)) = Return Undefined)
    by reflexivity.
  split; [exact H1|]. split; [exact H2|].
  exact (returned_setter_has_updated_the_config
           (LineConfig.setBias [String "pull_up"])
           (LineConfig.calls five_then_two LineConfig.new) H1 H2).
Defined.

(** X2.  A call of any method changes no entry but that of the offset
    that is current when it returns: every other offset has, in both maps,
    the settings or the absence of settings it had before. *)
Theorem call_touches_only_the_current_offset
  (k : LineConfig.Call) (c : LineConfig.t) (o : N) :
  o <> LineConfig.current_offset_ (snd (LineConfig.call k c)) ->
  OffsetMap.find o (LineConfig.settings_map_ (snd (LineConfig.call k c)))
  = OffsetMap.find o (LineConfig.settings_map_ c)
  /\ OffsetMap.find o (LineConfig.GetConfig (snd (LineConfig.call k c)))
     = OffsetMap.find o (LineConfig.GetConfig c).
Proof.
  unfold LineConfig.GetConfig.
  destruct (is_set_offset k) eqn:Hk.
  - destruct k as [info| | | | | | |]; try discriminate. simpl.
    destruct (set_offset_shape info c) as [[-> _] | (z & -> & _)]; [now split|].
    rewrite ensure_cursor. simpl. intros Hne.
    now apply (ensure_frame (LineConfig.with_current_offset (Uint32Value z) c) o).
  - rewrite (call_cursor k c Hk). intros Hne.
    destruct (setter_shape k c Hk)
      as [[-> _] | [[-> _] | [(s & -> & _) | (s & what & -> & _)]]].
    + now split.
    + now apply ensure_frame.
    + destruct (write_back_frame s (snd (LineConfig.EnsureSettingsForCurrentOffset c)) o)
        as [H1 H2]; [now rewrite ensure_cursor|].
      rewrite H1, H2. now apply ensure_frame.
    + rewrite write_only_frame by now rewrite ensure_cursor.
      now apply ensure_frame.
Qed.

Lemma call_touches_only_the_current_offset_witness :
  (5 : N) <> LineConfig.current_offset_
               (snd (LineConfig.call (LineConfig.setDirection [String "input"])
                       (LineConfig.calls five_then_two LineConfig.new)))
  /\ OffsetMap.find 5
       (LineConfig.GetConfig
          (snd (LineConfig.call (LineConfig.setDirection [String "input"])
                  (LineConfig.calls five_then_two LineConfig.new))))
     = OffsetMap.find 5 (LineConfig.GetConfig (LineConfig.calls five_then_two LineConfig.new)).
Proof.
  assert (H : (5 : N) <> LineConfig.current_offset_
                 (snd (LineConfig.call (LineConfig.setDirection [String "input"])
                         (LineConfig.calls five_then_two LineConfig.new))))
    by discriminate.
  split; [exact H|].
  exact (proj2 (call_touches_only_the_current_offset _ _ 5 H)).
Defined.

Lemma call_kept k c o :
  (OffsetMap.find o (LineConfig.settings_map_ c) <> None ->
   OffsetMap.find o (LineConfig.settings_map_ (snd (LineConfig.call k c))) <> None)
  /\ (OffsetMap.find o (LineConfig.config_ c) <> None ->
      OffsetMap.find o (LineConfig.config_ (snd (LineConfig.call k c))) <> None).
Proof.
  destruct (is_set_offset k) eqn:Hk.
  - destruct k as [info| | | | | | |]; try discriminate. simpl.
    destruct (set_offset_shape info c) as [[-> _] | (z & -> & _)]; [now split|].
    apply (ensure_kept (LineConfig.with_current_offset (Uint32Value z) c) o).
  - destruct (ensure_kept c o) as [E1 E2].
    destruct (setter_shape k c Hk)
      as [[-> _] | [[-> _] | [(s & -> & _) | (s & what & -> & _)]]].
    + now split.
    + now split.
    + simpl. unfold config_add_line_settings.
      split; intros H; apply find_insert_kept; auto.
    + simpl. split; intros H; [apply find_insert_kept|]; auto.
Qed.

(** X3.  No method ever removes an entry: an offset that has settings in
    the line configuration keeps having settings there through every later
    sequence of calls, whatever their arguments. *)
Theorem configured_offsets_stay_configured
  (ks : list LineConfig.Call) (c : LineConfig.t) (o : N) :
  OffsetMap.find o (LineConfig.GetConfig c) <> None ->
  OffsetMap.find o (LineConfig.GetConfig (LineConfig.calls ks c)) <> None.
Proof.
  unfold LineConfig.GetConfig. revert c.
  induction ks as [|k rest IH]; intros c Hc; simpl; [assumption|].
  apply IH. now apply call_kept.
Qed.

Lemma configured_offsets_stay_configured_witness :
  OffsetMap.find 5 (LineConfig.GetConfig (LineConfig.calls five_then_two LineConfig.new))
  <> None
  /\ OffsetMap.find 5
       (LineConfig.GetConfig
          (LineConfig.calls [LineConfig.setOffset [Number 9]; LineConfig.setBias [String "up"]]
             (LineConfig.calls five_then_two LineConfig.new))) <> None.
Proof.
  assert (H : OffsetMap.find 5
                (LineConfig.GetConfig (LineConfig.calls five_then_two LineConfig.new))
              <> None) by discriminate.
  split; [exact H|].
  exact (configured_offsets_stay_configured
           [LineConfig.setOffset [Number 9]; LineConfig.setBias [String "up"]] _ 5 H).
Defined.

Lemma ensure_current_settings c :
  current_settings (snd (LineConfig.EnsureSettingsForCurrentOffset c)) = current_settings c.
Proof.
  unfold current_settings at 1. rewrite ensure_cursor.
  now rewrite (proj2 (ensure_settings c)).
Qed.

Lemma stored_current_settings s c :
  current_settings (LineConfig.update_config s (LineConfig.write_settings s c)) = s.
Proof. unfold current_settings. simpl. now rewrite find_insert_eq. Qed.

Lemma same_field_refl f s : same_field f s s.
Proof. destruct f; reflexivity. Qed.

(** X4.  Once a call has returned normally the current offset has an
    entry, and from then on it has one after every call, failed calls
    included: only on an untouched fresh object does the cursor (offset 0)
    point at nothing. *)
Theorem cursor_has_an_entry (k : LineConfig.Call) (c : LineConfig.t) :
  fst (LineConfig.call k c) = Return Undefined \/ cursor_configured c ->
  cursor_configured (snd (LineConfig.call k c)).
Proof.
  intros H. unfold cursor_configured in *.
  assert (He : forall c0,
             OffsetMap.find
               (LineConfig.current_offset_ (snd (LineConfig.EnsureSettingsForCurrentOffset c0)))
               (LineConfig.settings_map_ (snd (LineConfig.EnsureSettingsForCurrentOffset c0)))
             <> None).
  { intros c0. rewrite ensure_cursor, (proj2 (ensure_settings c0)). discriminate. }
  destruct (is_set_offset k) eqn:Hk.
  - destruct k as [info| | | | | | |]; try discriminate. simpl in *.
    destruct (set_offset_shape info c) as [[Hc [msg Hm]] | (z & -> & _)].
    + rewrite Hc. destruct H as [H|H]; [congruence|assumption].
    + apply He.
  - destruct (setter_shape k c Hk)
      as [[Hc [msg Hm]] | [[-> _] | [(s & -> & _) | (s & what & -> & _)]]].
    + rewrite Hc. destruct H as [H|H]; [congruence|assumption].
    + apply He.
    + simpl. rewrite find_insert_eq. discriminate.
    + simpl. rewrite find_insert_eq. discriminate.
Qed.

Lemma cursor_has_an_entry_witness :
  fst (LineConfig.call (LineConfig.setActiveLow [Boolean true]) LineConfig.new)
  = Return Undefined
  /\ ~ cursor_configured LineConfig.new
  /\ cursor_configured
       (snd (LineConfig.call (LineConfig.setActiveLow [Boolean true]) LineConfig.new)).
Proof.
  split; [reflexivity|]. split; [intros H; now apply H|].
  exact (cursor_has_an_entry (LineConfig.setActiveLow [Boolean true]) LineConfig.new
           (or_introl eq_refl)).
Defined.

(** X5.  A setter writes its own member and nothing else: after a call
    of any method other than [setOffset], succeeded or failed, every other
    member of the settings of the current offset has the value it had
    before (the default value, when the offset had no entry). *)
Theorem setter_writes_only_its_member
  (k : LineConfig.Call) (c : LineConfig.t) (f : Field) :
  is_set_offset k = false ->
  field_of_call k <> Some f ->
  same_field f (current_settings (snd (LineConfig.call k c))) (current_settings c).
Proof.
  intros Hk Hf.
  destruct (setter_shape k c Hk)
    as [[-> _] | [[-> _] | [(s & -> & _ & Hs) | (s & what & -> & _ & Hs)]]].
  - apply same_field_refl.
  - rewrite ensure_current_settings. apply same_field_refl.
  - rewrite stored_current_settings.
    rewrite <- (proj1 (ensure_settings c)). now apply Hs.
  - unfold current_settings at 1. simpl. rewrite find_insert_eq.
    rewrite <- (proj1 (ensure_settings c)). now apply Hs.
Qed.

Lemma setter_writes_only_its_member_witness :
  is_set_offset (LineConfig.setEdge [String "rising"]) = false
  /\ field_of_call (LineConfig.setEdge [String "rising"]) <> Some FDirection
  /\ ls_direction
       (current_settings
          (snd (LineConfig.call (LineConfig.setEdge [String "rising"])
                  (LineConfig.calls five_then_two LineConfig.new))))
     = INPUT.
Proof.
  assert (H1 : is_set_offset (LineConfig.setEdge [String "rising"]) = false) by reflexivity.
  assert (H2 : field_of_call (LineConfig.setEdge [String "rising"]) <> Some FDirection)
    by discriminate.
  split; [exact H1|]. split; [exact H2|].
  exact (setter_writes_only_its_member (LineConfig.setEdge [String "rising"])
           (LineConfig.calls five_then_two LineConfig.new) FDirection H1 H2).
Defined.






(** X8.  [setOffset] never resets settings: on an object whose two maps
    agree, every offset that has settings keeps exactly these settings in
    both maps, the selected offset included, whatever the argument. *)
Theorem select_offset_keeps_existing_settings
  (c : LineConfig.t) (info : list Value) (o : N) (s : line_settings) :
  synced c ->
  OffsetMap.find o (LineConfig.GetConfig c) = Some s ->
  OffsetMap.find o (LineConfig.GetConfig (snd (LineConfig.SetOffset info c))) = Some s
  /\ OffsetMap.find o (LineConfig.settings_map_ (snd (LineConfig.SetOffset info c))) = Some s.
Proof.
  unfold synced, LineConfig.GetConfig. intros Hsync Ho.
  destruct (set_offset_shape info c) as [[-> _] | (z & -> & _)].
  - split; [assumption|now rewrite Hsync].
  - rewrite ensure_result. simpl.
    destruct (OffsetMap.find (Uint32Value z) (LineConfig.settings_map_ c)) eqn:Hk; simpl.
    + split; [assumption|now rewrite Hsync].
    + assert (Hne : Uint32Value z <> o).
      { intros Heq. rewrite Heq, Hsync, Ho in Hk. discriminate. }
      unfold config_add_line_settings. rewrite !find_insert_ne by assumption.
      split; [assumption|now rewrite Hsync].
Qed.

Lemma select_offset_keeps_existing_settings_witness :
  synced (LineConfig.calls five_then_two LineConfig.new)
  /\ OffsetMap.find 5 (LineConfig.GetConfig (LineConfig.calls five_then_two LineConfig.new))
     = Some output_settings
  /\ OffsetMap.find 5
       (LineConfig.GetConfig
          (snd (LineConfig.SetOffset [Number 5]
                  (LineConfig.calls five_then_two LineConfig.new))))
     = Some output_settings.
Proof.
  assert (H1 : synced (LineConfig.calls five_then_two LineConfig.new)) by reflexivity.
  assert (H2 : OffsetMap.find 5
                 (LineConfig.GetConfig (LineConfig.calls five_then_two LineConfig.new))
               = Some output_settings) by reflexivity.
  split; [exact H1|]. split; [exact H2|].
  exact (proj1 (select_offset_keeps_existing_settings _ [Number 5] 5 output_settings H1 H2)).
Defined.

(* ===================================================================== *)
(** ** LineRequest: further properties *)
(* ===================================================================== *)

Lemma read_offsets_numbers elems offsets :
  LineRequest.read_offsets elems = Some offsets ->
  exists zs, elems = map Number zs /\ offsets = map Uint32Value zs.
Proof.
  revert offsets. induction elems as [|v rest IH]; intros offsets; simpl.
  - intros [= <-]. now exists [].
  - destruct v; try discriminate.
    destruct (LineRequest.read_offsets rest) as [os|]; [|discriminate].
    intros [= <-]. destruct (IH os eq_refl) as (zs & -> & ->).
    now exists (z :: zs).
Qed.

(** X9.  The constructor of [LineRequest] yields a handle only when its
    arguments are a [Chip], an array of numbers and a [LineConfig], the
    chip is open and the device has granted the one request built from the
    configuration; the handle is then live and holds the offsets of the
    array.  A refusal by the device fails the whole construction with
    [Failed to request lines:] and the device's message.  On a closed chip
    there is no check: the call goes through the empty chip pointer.  No
    other [Error] is thrown: every remaining failure is a [TypeError]. *)
Theorem constructor_outcomes
  (chips : nat -> Chip.t) (configs : nat -> LineConfig.t) (info : list Value) :
  match LineRequest.New chips configs info with
  | Return h =>
      exists chip_ref zs config_ref rest g r,
        info = Object ChipClass chip_ref :: Array (map Number zs)
                 :: Object LineConfigClass config_ref :: rest
        /\ Chip.GetChip (chips chip_ref) = Some g
        /\ ch_do_request g (LineRequest.build (LineConfig.GetConfig (configs config_ref))
                                              (map Uint32Value zs)) = inr r
        /\ LineRequest.GetRequest h = Some r
        /\ LineRequest.offsets_ h = map Uint32Value zs
  | Throw (TypeError _) => True
  | Throw (Error msg) =>
      exists chip_ref zs config_ref rest g what,
        info = Object ChipClass chip_ref :: Array (map Number zs)
                 :: Object LineConfigClass config_ref :: rest
        /\ Chip.GetChip (chips chip_ref) = Some g
        /\ ch_do_request g (LineRequest.build (LineConfig.GetConfig (configs config_ref))
                                              (map Uint32Value zs)) = inl what
        /\ msg = "Failed to request lines: " ++ what
  | Abort f =>
      f = NullDereference
      /\ exists chip_ref zs config_ref rest,
           info = Object ChipClass chip_ref :: Array (map Number zs)
                    :: Object LineConfigClass config_ref :: rest
           /\ Chip.GetChip (chips chip_ref) = None
  end.
Proof.
  unfold LineRequest.New.
  destruct info as [|chipObj l]; [exact I|].
  destruct l as [|a1 l]; [exact I|].
  destruct a1; try (destruct l; exact I).
  destruct l as [|configObj rest]; [exact I|].
  destruct (negb (IsObject chipObj) || negb (IsObject configObj)); [exact I|].
  destruct chipObj as [| | | | | | |cls chip_ref|]; try exact I.
  destruct cls; try exact I.
  destruct (LineRequest.read_offsets elems) as [offsets|] eqn:Hread; [|exact I].
  destruct (read_offsets_numbers _ _ Hread) as (zs & -> & ->).
  destruct configObj as [| | | | | | |cls config_ref|]; try exact I.
  destruct cls; try exact I.
  destruct (Chip.GetChip (chips chip_ref)) as [g|] eqn:Hg.
  - destruct (ch_do_request g _) as [what|r] eqn:Hreq.
    + exists chip_ref, zs, config_ref, rest, g, what. repeat split; assumption.
    + exists chip_ref, zs, config_ref, rest, g, r. repeat split; assumption.
  - split; [reflexivity|]. exists chip_ref, zs, config_ref, rest. now split.
Qed.

Section SubmittedConfig.
Variable f : N -> line_settings.

Lemma fold_add_consumer offsets b :
  rb_consumer (fold_left (fun b o => builder_add_line_settings o (f o) b) offsets b)
  = rb_consumer b.
Proof.
  revert b. induction offsets as [|o rest IH]; intros b; simpl; [reflexivity|].
  now rewrite IH.
Qed.

Lemma fold_add_sorted offsets b :
  OffsetMap.sorted (rb_config b) ->
  OffsetMap.sorted
    (rb_config (fold_left (fun b o => builder_add_line_settings o (f o) b) offsets b)).
Proof.
  revert b. induction offsets as [|o rest IH]; intros b Hb; simpl; [assumption|].
  apply IH. simpl. now apply sorted_insert.
Qed.

End SubmittedConfig.

(** X10.  The line configuration the constructor submits holds exactly
    the requested offsets: an offset has settings in it if and only if it
    occurs in the sequence, so settings of the store for offsets that were
    not requested are not submitted, and an offset requested twice is
    submitted once.  The consumer is always [libgpiod2-node]. *)
Theorem submitted_config_has_the_requested_offsets
  (cfg : line_config) (offsets : list N) (o : N) :
  (OffsetMap.find o (rb_config (LineRequest.build cfg offsets)) <> None <-> In o offsets)
  /\ OffsetMap.sorted (rb_config (LineRequest.build cfg offsets))
  /\ rb_consumer (LineRequest.build cfg offsets) = "libgpiod2-node".
Proof.
  split; [|split].
  - split.
    + intros Hfind. destruct (in_dec N.eq_dec o offsets) as [Hin|Hout]; [assumption|].
      exfalso. apply Hfind.
      unfold LineRequest.build, LineRequest.add_requested_lines.
      destruct cfg as [|e cfg']; simpl.
      * now rewrite (fold_add_config_other (fun _ => default_settings)).
      * now rewrite (fold_add_config_other (LineRequest.resolve (e :: cfg') e)).
    + intros Hin. rewrite (build_config cfg offsets o Hin).
      destruct (OffsetMap.begin cfg); discriminate.
  - unfold LineRequest.build, LineRequest.add_requested_lines.
    destruct cfg as [|e cfg']; simpl.
    + now apply (fold_add_sorted (fun _ => default_settings)).
    + now apply (fold_add_sorted (LineRequest.resolve (e :: cfg') e)).
  - unfold LineRequest.build, LineRequest.add_requested_lines.
    destruct cfg as [|e cfg']; simpl.
    + now rewrite (fold_add_consumer (fun _ => default_settings)).
    + now rewrite (fold_add_consumer (LineRequest.resolve (e :: cfg') e)).
Qed.

(** X11.  [getValue] checks its argument before it looks at the handle.
    It throws the state error exactly when the argument is a number and
    the handle is not live, a device error exactly when the handle is live
    and the device library refuses the read, and a validation error
    exactly when the first argument is not a number; and what it returns
    is always the number 0 or the number 1. *)
Theorem get_value_outcomes (info : list Value) (h : LineRequest.t) :
  (fails_with (LineRequest.GetValue info h) StateError
   <-> (exists z rest, info = Number z :: rest) /\ LineRequest.GetRequest h = None)
  /\ (fails_with (LineRequest.GetValue info h) DeviceError
      <-> exists z rest r what,
            info = Number z :: rest
            /\ LineRequest.GetRequest h = Some r
            /\ lr_get_value r (Uint32Value z) = inl what)
  /\ (fails_with (LineRequest.GetValue info h) ValidationError
      <-> ~ exists z rest, info = Number z :: rest)
  /\ forall v, LineRequest.GetValue info h = Return v -> v = Number 0 \/ v = Number 1.
Proof.
  unfold LineRequest.GetRequest, LineRequest.GetValue.
  assert (Hbad : forall msg,
             (forall z rest, info <> Number z :: rest) ->
             (fails_with (Throw (A := Value) (TypeError msg)) StateError
              <-> (exists z rest, info = Number z :: rest) /\ LineRequest.request_ h = None)
             /\ (fails_with (Throw (A := Value) (TypeError msg)) DeviceError
                 <-> exists z rest r what,
                       info = Number z :: rest
                       /\ LineRequest.request_ h = Some r
                       /\ lr_get_value r (Uint32Value z) = inl what)
             /\ (fails_with (Throw (A := Value) (TypeError msg)) ValidationError
                 <-> ~ exists z rest, info = Number z :: rest)
             /\ forall v, Throw (TypeError msg) = Return v -> v = Number 0 \/ v = Number 1).
  { intros msg Hno. split; [|split; [|split]].
    - split.
      + intros (e & [= <-] & Hk). discriminate.
      + intros [(z & rest & Hi) _]. now apply Hno in Hi.
    - split.
      + intros (e & [= <-] & Hk). discriminate.
      + intros (z & rest & r & what & Hi & _). now apply Hno in Hi.
    - split.
      + intros _ (z & rest & Hi). now apply Hno in Hi.
      + intros _. exists (TypeError msg). now split.
    - discriminate. }
  destruct info as [|v0 rest0]; [apply Hbad; discriminate|].
  destruct v0; try (apply Hbad; discriminate).
  destruct (LineRequest.request_ h) as [r|] eqn:Hr.
  - destruct (lr_get_value r (Uint32Value z)) as [what|v] eqn:Hget.
    + split; [|split; [|split]].
      * split.
        -- intros (e & [= <-] & Hk). cbn in Hk. discriminate.
        -- intros [_ Hn]. discriminate.
      * split.
        -- intros _. exists z, rest0, r, what. repeat split; assumption.
        -- intros _. exists (Error ("Failed to get value: " ++ what)). now split.
      * split.
        -- intros (e & [= <-] & Hk). cbn in Hk. discriminate.
        -- intros Hno. exfalso. apply Hno. now exists z, rest0.
      * discriminate.
    + split; [|split; [|split]].
      * split.
        -- intros (e & He & _). discriminate.
        -- intros [_ Hn]. discriminate.
      * split.
        -- intros (e & He & _). discriminate.
        -- intros (z' & rest' & r' & what & [= <- <-] & [= <-] & Hw). congruence.
      * split.
        -- intros (e & He & _). discriminate.
        -- intros Hno. exfalso. apply Hno. now exists z, rest0.
      * intros v1 [= <-]. destruct v; simpl; auto.
  - split; [|split; [|split]].
    + split.
      * intros _. split; [now exists z, rest0|reflexivity].
      * intros _. exists (Error "Line request is not active"). now split.
    + split.
      * intros (e & [= <-] & Hk). discriminate.
      * intros (z' & rest' & r' & what & _ & Hr' & _). discriminate.
    + split.
      * intros (e & [= <-] & Hk). discriminate.
      * intros Hno. exfalso. apply Hno. now exists z, rest0.
    + discriminate.
Qed.

(* ===================================================================== *)
(** ** Chip: further properties *)
(* ===================================================================== *)

(** X12.  The constructor of [Chip] yields a chip only when its first
    argument is a string and the device has opened the chip of that name;
    the chip is then open and remembers the name.  When the device cannot
    open it the constructor throws [Failed to open GPIO chip:] with the
    device's message, a device error; when the first argument is not a
    string it throws a validation error without asking the device. *)
Theorem chip_constructor_outcomes (open : string -> result chip) (info : list Value) :
  match Chip.New open info with
  | Return c =>
      exists name rest g,
        info = String name :: rest /\ open name = inr g
        /\ Chip.GetChip c = Some g /\ Chip.name_ c = name
  | Throw e =>
      (classify e = ValidationError /\ forall name rest, info <> String name :: rest)
      \/ (classify e = DeviceError
          /\ exists name rest what,
               info = String name :: rest /\ open name = inl what
               /\ e = Error ("Failed to open GPIO chip: " ++ what))
  | Abort _ => False
  end.
Proof.
  unfold Chip.New.
  destruct info as [|v rest]; [left; split; [reflexivity|discriminate]|].
  destruct v; try (left; split; [reflexivity|discriminate]).
  destruct (open s) as [what|g] eqn:Ho.
  - right. split; [reflexivity|]. exists s, rest, what. repeat split; assumption.
  - exists s, rest, g. repeat split; assumption.
Qed.

(** X13.  What [getLineInfo] returns is an object with the five
    properties name, used, direction, activeLow and consumer, in this
    order, taken from the device's answer for the offset (the number
    reduced to 32 bits) on an open chip.  The direction is one of the
    strings input, output and unknown, and the consumer is never the empty
    string: an empty consumer is reported as unused. *)
Theorem line_info_object (info : list Value) (c : Chip.t) (v : Value) :
  Chip.GetLineInfo info c = Return v ->
  exists g z rest li direction consumer,
    Chip.GetChip c = Some g
    /\ info = Number z :: rest
    /\ ch_get_line_info g (Uint32Value z) = inr li
    /\ v = Literal [ ("name", String (li_name li)); ("used", Boolean (li_used li));
                     ("direction", String direction);
                     ("activeLow", Boolean (li_active_low li));
                     ("consumer", String consumer) ]
    /\ (direction = "input" /\ li_direction li = INPUT
        \/ direction = "output" /\ li_direction li = OUTPUT
        \/ direction = "unknown" /\ li_direction li = DIR_AS_IS)
    /\ consumer <> ""
    /\ (li_consumer li = "" /\ consumer = "unused" \/ consumer = li_consumer li).
Proof.
  unfold Chip.GetLineInfo, Chip.GetChip.
  destruct (Chip.chip_ c) as [g|]; [|discriminate].
  destruct info as [|v0 rest]; [discriminate|].
  destruct v0; try discriminate.
  destruct (ch_get_line_info g (Uint32Value z)) as [what|li] eqn:Hli; [discriminate|].
  intros [= <-].
  exists g, z, rest, li, (Chip.direction_string (li_direction li)),
    (if String.eqb (li_consumer li) "" then "unused" else li_consumer li).
  split; [reflexivity|]. split; [reflexivity|]. split; [assumption|].
  split; [reflexivity|]. split; [|split].
  - destruct (li_direction li); simpl; auto.
  - destruct (String.eqb (li_consumer li) "") eqn:He; [discriminate|].
    now apply String.eqb_neq in He.
  - destruct (String.eqb (li_consumer li) "") eqn:He; [|now right].
    left. apply String.eqb_eq in He. now split.
Qed.

Lemma line_info_object_witness :
  Chip.GetLineInfo [Number 1] open_chip
  = Return (Literal [ ("name", String "GPIO"); ("used", Boolean true);
                      ("direction", String "unknown"); ("activeLow", Boolean false);
                      ("consumer", String "spi0 CS0") ])
  /\ exists g, Chip.GetChip open_chip = Some g.
Proof.
  assert (H : Chip.GetLineInfo [Number 1] open_chip
              = Return (Literal [ ("name", String "GPIO"); ("used", Boolean true);
                                  ("direction", String "unknown");
                                  ("activeLow", Boolean false);
                                  ("consumer", String "spi0 CS0") ])) by reflexivity.
  split; [exact H|].
  destruct (line_info_object [Number 1] open_chip _ H) as (g & _ & _ & _ & _ & _ & Hg & _).
  exists g. exact Hg.
Defined.

(** X14.  A query of a [Chip] throws the state error if and only if the
    chip is closed, whatever its arguments: on an open chip a query either
    returns, or throws a validation error, or throws the device's refusal
    as a device error. *)
Theorem closed_error_only_when_closed (k : Chip.Call) (c : Chip.t) :
  is_query k = true ->
  (fails_with (fst (Chip.call k c)) StateError <-> Chip.GetChip c = None)
  /\ (Chip.GetChip c = None -> fst (Chip.call k c) = Throw (Error "Chip is closed")).
Proof.
  intros Hk. unfold Chip.GetChip.
  assert (Hclosed : Chip.chip_ c = None ->
                    fst (Chip.call k c) = Throw (Error "Chip is closed")).
  { intros Hc. destruct k as [info|info|info|info]; try discriminate; simpl;
      unfold Chip.GetNumLines, Chip.GetLineInfo, Chip.GetLabel; now rewrite Hc. }
  split; [|exact Hclosed]. split.
  - destruct (Chip.chip_ c) as [g|] eqn:Hc; [|reflexivity].
    intros (e & He & Hkind). exfalso.
    destruct k as [info|info|info|info]; try discriminate; simpl in He;
      unfold Chip.GetNumLines, Chip.GetLineInfo, Chip.GetLabel in He; rewrite Hc in He.
    + destruct (ch_get_info g); [|discriminate].
      injection He as <-. cbn in Hkind. discriminate.
    + destruct info as [|[] rest]; try (injection He as <-; discriminate).
      destruct (ch_get_line_info g _); [|discriminate].
      injection He as <-. cbn in Hkind. discriminate.
    + destruct (ch_get_info g); [|discriminate].
      injection He as <-. cbn in Hkind. discriminate.
  - intros Hc. rewrite (Hclosed Hc). exists (Error "Chip is closed"). now split.
Qed.

Lemma closed_error_only_when_closed_witness :
  is_query (Chip.getLabel []) = true
  /\ fst (Chip.call (Chip.getLabel []) open_chip) = Return (String "pinctrl")
  /\ ~ fails_with (fst (Chip.call (Chip.getLabel []) open_chip)) StateError.
Proof.
  assert (Hq : is_query (Chip.getLabel []) = true) by reflexivity.
  split; [exact Hq|]. split; [reflexivity|].
  intros Hf.
  pose proof (proj1 (proj1 (closed_error_only_when_closed (Chip.getLabel []) open_chip Hq))
                Hf) as Hnone.
  discriminate Hnone.
Defined.

(* ===================================================================== *)
(** ** Line: further properties *)
(* ===================================================================== *)

Lemma StopWatchThread_idle l :
  Line.watching_ l = false -> Line.StopWatchThread l = l.
Proof. intros Hw. unfold Line.StopWatchThread. now rewrite Hw. Qed.

(** X15.  [unwatch] on a line that is not watching changes nothing, and
    both [unwatch] and [unexport] are idempotent: a second call in a row
    returns normally and leaves the line, and the objects, exactly as the
    first left them. *)
Theorem stopping_twice_is_stopping_once
  (requests : Line.Heap) (l : Line.t) (info info' : list Value) :
  (Line.watching_ l = false -> Line.Unwatch info l = (Return Undefined, l))
  /\ Line.Unwatch info' (snd (Line.Unwatch info l))
     = (Return Undefined, snd (Line.Unwatch info l))
  /\ Line.Unexport info' (fst (snd (Line.Unexport info requests l)))
       (snd (snd (Line.Unexport info requests l)))
     = (Return Undefined, snd (Line.Unexport info requests l)).
Proof.
  unfold Line.Unwatch. simpl. split; [|split].
  - intros Hw. now rewrite StopWatchThread_idle.
  - now rewrite (StopWatchThread_idle _ (StopWatchThread_watching l)).
  - destruct (unbind_watch_state requests (Line.StopWatchThread l)) as (Hw & _ & _ & He).
    rewrite StopWatchThread_watching in Hw.
    assert (Hsnd : snd (Line.Unexport info requests l)
                   = snd (Line.unbind requests (Line.StopWatchThread l))).
    { unfold Line.Unexport.
      now destruct (Line.unbind requests (Line.StopWatchThread l)) as [[fatal|] w]. }
    rewrite Hsnd.
    destruct (snd (Line.unbind requests (Line.StopWatchThread l))) as [requests1 l1].
    simpl in *. unfold Line.Unexport.
    rewrite (StopWatchThread_idle _ Hw). now rewrite (unbind_unexported _ _ He).
Qed.

(** X16.  After [unexport] the line is inert until it is exported again:
    through every sequence of calls without [export] the line and the
    objects stay exactly as [unexport] left them, [getValue], [setValue]
    with a number and [watch] with a function throw [Line is not exported],
    [setValue] and [watch] with other arguments throw a [TypeError], and
    [unexport] and [unwatch] return normally. *)
Theorem unexported_line_is_inert
  (requests : Line.Heap) (info : list Value) (ks : list Line.Call) (l : Line.t) :
  Forall (fun k => is_export k = false) ks ->
  snd (line_calls (fst (snd (Line.Unexport info requests l))) ks
         (snd (snd (Line.Unexport info requests l))))
  = snd (Line.Unexport info requests l)
  /\ Forall2 (fun k r =>
                match k with
                | Line.getValue _ | Line.setValue (Number _ :: _)
                | Line.watch (Function _ :: _) => r = Throw (Error "Line is not exported")
                | Line.setValue _ | Line.watch _ => exists msg, r = Throw (TypeError msg)
                | Line.unexport _ | Line.unwatch _ => r = Return Undefined
                | _ => True
                end)
       ks (fst (line_calls (fst (snd (Line.Unexport info requests l))) ks
                  (snd (snd (Line.Unexport info requests l))))).
Proof.
  intros Hks.
  destruct (unbind_watch_state requests (Line.StopWatchThread l)) as (Hw & _ & _ & He).
  rewrite StopWatchThread_watching in Hw.
  assert (Hsnd : snd (Line.Unexport info requests l)
                 = snd (Line.unbind requests (Line.StopWatchThread l))).
  { unfold Line.Unexport.
    now destruct (Line.unbind requests (Line.StopWatchThread l)) as [[fatal|] w]. }
  rewrite Hsnd.
  destruct (snd (Line.unbind requests (Line.StopWatchThread l))) as [requests' l'].
  simpl in Hw, He. cbn [fst snd]. clear Hsnd.
  induction Hks as [|k rest Hk Hrest IH]; simpl; [split; [reflexivity|constructor]|].
  assert (Hcall : snd (Line.call requests' k l') = (requests', l')
                  /\ match k with
                     | Line.getValue _ | Line.setValue (Number _ :: _)
                     | Line.watch (Function _ :: _) =>
                         fst (Line.call requests' k l') = Throw (Error "Line is not exported")
                     | Line.setValue _ | Line.watch _ =>
                         exists msg, fst (Line.call requests' k l') = Throw (TypeError msg)
                     | Line.unexport _ | Line.unwatch _ =>
                         fst (Line.call requests' k l') = Return Undefined
                     | _ => True
                     end).
  { destruct k as [i|i|i|i|i|i|]; simpl in Hk; try discriminate; cbn [Line.call].
    - unfold Line.GetValue. rewrite He. now split.
    - unfold Line.SetValue. destruct i as [|[] ?]; simpl; rewrite ?He; eauto.
    - unfold Line.Unexport.
      rewrite (StopWatchThread_idle _ Hw), (unbind_unexported _ _ He). now split.
    - unfold Line.Watch, Line.is_exported. rewrite He.
      destruct i as [|[] ?]; simpl; eauto.
    - unfold Line.Unwatch. rewrite (StopWatchThread_idle _ Hw). now split.
    - unfold Line.Destroy.
      rewrite (StopWatchThread_idle _ Hw), (unbind_unexported _ _ He).
      destruct (Line.watch_thread_ l'); now split. }
  destruct (Line.call requests' k l') as [r [requests1 l1]]. simpl in Hcall.
  destruct Hcall as [[= -> ->] Hr].
  destruct (line_calls requests' rest l') as [rs w]. simpl in *. destruct IH as [-> IH].
  split; [reflexivity|]. constructor; [|assumption].
  destruct k as [i|i|i|i|i|i|]; try exact Hr; try exact I.
Qed.

Lemma unexported_line_is_inert_witness :
  Forall (fun k => is_export k = false)
    [Line.getValue []; Line.watch [Function 3]; Line.setValue [Number 1]]
  /\ fst (line_calls (fst (snd (Line.Unexport [] two_requests watching_line)))
            [Line.getValue []; Line.watch [Function 3]; Line.setValue [Number 1]]
            (snd (snd (Line.Unexport [] two_requests watching_line))))
     = [ Throw (Error "Line is not exported"); Throw (Error "Line is not exported");
         Throw (Error "Line is not exported") ].
Proof.
  assert (H : Forall (fun k => is_export k = false)
                [Line.getValue []; Line.watch [Function 3]; Line.setValue [Number 1]])
    by (repeat constructor).
  split; [exact H|].
  destruct (unexported_line_is_inert two_requests [] _ watching_line H)
    as [_ Hall].
  inversion Hall as [|k1 r1 ks1 rs1 H1 T1 E1 E2]; subst.
  inversion T1 as [|k2 r2 ks2 rs2 H2 T2 E3 E4]; subst.
  inversion T2 as [|k3 r3 ks3 rs3 H3 T3 E5 E6]; subst.
  inversion T3; subst.
  reflexivity.
Defined.

Lemma idle_invariant l :
  Line.watching_ l = false -> Line.watch_thread_ l = Line.not_a_thread ->
  threads_started l = threads_joined l -> thread_invariant l.
Proof.
  intros Hw Hth Hc. unfold thread_invariant. rewrite Hw, Hth.
  repeat split; try discriminate. lia.
Qed.

(** X17.  The finalizer of a thread-safe function runs on a later turn
    of the event loop than the [Release] that causes it, and it clears the
    flag of the line whatever the line is doing by then.  On an exported
    line that watches and owns its thread, let the caller call [unwatch]
    and then [watch] again before the finalizer of the released function
    has run.  Both calls return normally and the line is watching and owns
    a new thread.  When the finalizer then runs, the flag is cleared while
    the thread object stays joinable and the new thread-safe function
    unreleased: the line no longer is watching exactly when it owns a
    thread.  From there [unwatch] returns without joining anything, and
    both the next [watch] and the destructor end in [std::terminate]. *)
Theorem late_finalizer_stops_the_next_watch
  (requests : Line.Heap) (l : Line.t) (bound : nat) (held : LineRequest.t)
  (callback callback' callback'' : nat) (info : list Value) :
  Line.exported_ l = true ->
  Line.request_ l = Some bound ->
  requests bound = Some held ->
  Line.watching_ l = true ->
  Line.watch_thread_ l = Line.joinable ->
  Line.tsfn_ l = Line.live_tsfn callback ->
  fst (line_steps requests
         [ Line.method (Line.unwatch info); Line.method (Line.watch [Function callback']);
           Line.tsfn_finalized ] l)
  = [Return Undefined; Return Undefined; Return Undefined]
  /\ snd (line_steps requests
            [ Line.method (Line.unwatch info); Line.method (Line.watch [Function callback']) ]
            l)
     = (requests,
        {| Line.chip_ := Line.chip_ l; Line.offset_ := Line.offset_ l;
           Line.request_ := Some bound; Line.exported_ := true;
           Line.watch_thread_ := Line.joinable; Line.watching_ := true;
           Line.tsfn_ := Line.live_tsfn callback';
           Line.effects :=
             Line.effects l
             ++ [ Line.cv_notified; Line.thread_joined; Line.tsfn_released;
                  Line.tsfn_created callback'; Line.thread_started ] |})
  /\ snd (line_steps requests
            [ Line.method (Line.unwatch info); Line.method (Line.watch [Function callback']);
              Line.tsfn_finalized ] l)
     = (requests,
        {| Line.chip_ := Line.chip_ l; Line.offset_ := Line.offset_ l;
           Line.request_ := Some bound; Line.exported_ := true;
           Line.watch_thread_ := Line.joinable; Line.watching_ := false;
           Line.tsfn_ := Line.live_tsfn callback';
           Line.effects :=
             Line.effects l
             ++ [ Line.cv_notified; Line.thread_joined; Line.tsfn_released;
                  Line.tsfn_created callback'; Line.thread_started; Line.cv_notified ] |})
  /\ ~ thread_invariant
         (snd (snd (line_steps requests
                      [ Line.method (Line.unwatch info);
                        Line.method (Line.watch [Function callback']);
                        Line.tsfn_finalized ] l)))
  /\ fst (line_steps requests
            [ Line.method (Line.unwatch info); Line.method (Line.watch [Function callback']);
              Line.tsfn_finalized; Line.method (Line.unwatch info);
              Line.method (Line.watch [Function callback'']) ] l)
     = [Return Undefined; Return Undefined; Return Undefined; Return Undefined;
        Abort StdTerminate]
  /\ fst (line_steps requests
            [ Line.method (Line.unwatch info); Line.method (Line.watch [Function callback']);
              Line.tsfn_finalized; Line.method Line.destroy ] l)
     = [Return Undefined; Return Undefined; Return Undefined; Abort StdTerminate].
Proof.
  intros He Hr Hh Hw Ht Hf.
  pose proof (StopWatchThread_running l callback Hw Ht Hf) as Hstop.
  assert (Hexp : Line.is_exported (Line.StopWatchThread l) = true).
  { rewrite Hstop. unfold Line.is_exported. simpl. now rewrite He, Hr. }
  assert (Hwatch :
            Line.Watch [Function callback'] (Line.StopWatchThread l)
            = (Return Undefined,
               {| Line.chip_ := Line.chip_ l; Line.offset_ := Line.offset_ l;
                  Line.request_ := Some bound; Line.exported_ := true;
                  Line.watch_thread_ := Line.joinable; Line.watching_ := true;
                  Line.tsfn_ := Line.live_tsfn callback';
                  Line.effects :=
                    Line.effects l
                    ++ [ Line.cv_notified; Line.thread_joined; Line.tsfn_released;
                         Line.tsfn_created callback'; Line.thread_started ] |})).
  { unfold Line.Watch. rewrite Hexp. cbv zeta.
    rewrite (StopWatchThread_idle _ (StopWatchThread_watching l)).
    rewrite Hstop. simpl. rewrite He, Hr. now rewrite <- !app_assoc. }
  cbn [line_steps Line.step Line.call Line.Unwatch fst snd].
  rewrite Hwatch. cbn [fst snd].
  unfold Line.tsfn_finalizer, Line.Destroy, Line.unbind, Line.Watch, Line.is_exported,
    Line.StopWatchThread.
  simpl. rewrite Hh. simpl. rewrite <- !app_assoc. simpl.
  split; [reflexivity|]. split; [reflexivity|]. split; [reflexivity|].
  split; [|split; reflexivity].
  intros [[_ Hj] _]. simpl in Hj. specialize (Hj eq_refl). discriminate.
Qed.

Lemma late_finalizer_stops_the_next_watch_witness :
  Line.exported_ watching_line = true
  /\ Line.request_ watching_line = Some 7%nat
  /\ two_requests 7%nat = Some input_handle
  /\ Line.watching_ watching_line = true
  /\ Line.watch_thread_ watching_line = Line.joinable
  /\ Line.tsfn_ watching_line = Line.live_tsfn 1
  /\ fst (line_steps two_requests
            [ Line.method (Line.unwatch []); Line.method (Line.watch [Function 2]);
              Line.tsfn_finalized; Line.method (Line.unwatch []);
              Line.method (Line.watch [Function 3]) ] watching_line)
     = [Return Undefined; Return Undefined; Return Undefined; Return Undefined;
        Abort StdTerminate].
Proof.
  assert (H1 : Line.exported_ watching_line = true) by reflexivity.
  assert (H2 : Line.request_ watching_line = Some 7%nat) by reflexivity.
  assert (H3 : two_requests 7%nat = Some input_handle) by reflexivity.
  assert (H4 : Line.watching_ watching_line = true) by reflexivity.
  assert (H5 : Line.watch_thread_ watching_line = Line.joinable) by reflexivity.
  assert (H6 : Line.tsfn_ watching_line = Line.live_tsfn 1) by reflexivity.
  split; [exact H1|]. split; [exact H2|]. split; [exact H3|]. split; [exact H4|].
  split; [exact H5|]. split; [exact H6|].
  destruct (late_finalizer_stops_the_next_watch two_requests watching_line 7 input_handle
              1 2 3 [] H1 H2 H3 H4 H5 H6) as (_ & _ & _ & _ & H & _).
  exact H.
Defined.

(** With a silent caller the flag is cleared only by the handler of the
    loop, right after it has sent an error. *)
Lemma silent_loop_cleared_flag rounds :
  forall sent,
    Forall caller_silent rounds ->
    Line.watching_after (Line.watch_loop rounds true sent) = false ->
    exists events,
      Line.delivered (Line.watch_loop rounds true sent)
      = ((sent ++ events) ++ [Line.error Line.sliced_what])%list
      /\ Line.status (Line.watch_loop rounds true sent) = Line.exited.
Proof.
  induction rounds as [|r rest IH]; intros sent Hs; simpl; [discriminate|].
  inversion Hs as [|r' rest' (Hb & Hw & Hr) Hrest]; subst.
  rewrite Hb, Hw. simpl.
  destruct (Line.outcome r) as [|ty|what|what].
  - now apply IH.
  - rewrite Hr. simpl.
    intros Hf. destruct (IH _ Hrest Hf) as (events & Hd & Hst).
    exists (Line.event (Line.edge_value ty) :: events).
    split; [|assumption]. rewrite Hd. now rewrite <- !app_assoc.
  - intros _. rewrite watch_loop_stopped. simpl.
    exists []. now rewrite app_nil_r.
  - rewrite Hr. simpl. intros _. rewrite watch_loop_stopped. simpl.
    exists []. now rewrite app_nil_r.
Qed.

(** X18.  A loop that has stopped by itself is never joined.  The line
    is exported, watching and owns its thread, and the caller makes no
    call while the thread runs; the thread ends with the flag cleared,
    which it does only after sending an error.  Then [unwatch] returns
    without joining the thread or releasing the thread-safe function,
    [unexport] unbinds and leaves the thread joinable, and both a new
    [watch] and the destructor end in [std::terminate], because the thread
    object is assigned or destroyed while it is still joinable. *)
Theorem loop_stopped_by_itself_is_never_joined
  (requests : Line.Heap) (l : Line.t) (rounds : list Line.Round)
  (info : list Value) (callback : nat) (rest : list Value) :
  Line.is_exported l = true ->
  Line.watching_ l = true ->
  Line.watch_thread_ l = Line.joinable ->
  Forall caller_silent rounds ->
  Line.watching_after (Line.WatchThread requests false rounds l) = false ->
  (exists events,
     Line.delivered (Line.WatchThread requests false rounds l)
     = (events ++ [Line.error Line.sliced_what])%list)
  /\ Line.Unwatch info (after_run (Line.WatchThread requests false rounds l) l)
     = (Return Undefined, after_run (Line.WatchThread requests false rounds l) l)
  /\ Line.watch_thread_
       (snd (snd (Line.Unexport info requests
                    (after_run (Line.WatchThread requests false rounds l) l))))
     = Line.joinable
  /\ fst (Line.Watch (Function callback :: rest)
            (after_run (Line.WatchThread requests false rounds l) l))
     = Abort StdTerminate
  /\ fst (Line.Destroy requests (after_run (Line.WatchThread requests false rounds l) l))
     = Abort StdTerminate.
Proof.
  intros He Hw Hth Hs Hf.
  assert (Hrun : exists ref h,
             Line.request_ l = Some ref /\ Line.exported_ l = true
             /\ requests ref = Some h
             /\ exists events,
                  Line.delivered (Line.WatchThread requests false rounds l)
                  = (events ++ [Line.error Line.sliced_what])%list).
  { unfold Line.WatchThread in *. unfold Line.is_exported in He.
    destruct (Line.request_ l) as [ref|]; [|now rewrite andb_false_r in He].
    rewrite andb_true_r in He. rewrite He in *. rewrite Hw in *.
    destruct (requests ref) as [h|] eqn:Hh; [|discriminate].
    exists ref, h. split; [reflexivity|]. split; [reflexivity|]. split; [exact Hh|].
    destruct (LineRequest.GetRequest h).
    + destruct (silent_loop_cleared_flag rounds [] Hs Hf) as (events & Hd & _).
      now exists events.
    + unfold Line.watch_loop_null in Hf. destruct rounds as [|r rounds']; [discriminate|].
      inversion Hs as [|r' rest' (Hb & _) _]; subst. rewrite Hb in Hf. discriminate. }
  destruct Hrun as (ref & h & Hreq & Hexp & Hh & Hsent).
  set (l' := after_run (Line.WatchThread requests false rounds l) l).
  assert (Hw' : Line.watching_ l' = false) by exact Hf.
  assert (Hth' : Line.watch_thread_ l' = Line.joinable) by exact Hth.
  assert (He' : Line.is_exported l' = true) by exact He.
  assert (Hunbind : fst (Line.unbind requests l') = None
                    /\ Line.watch_thread_ (snd (snd (Line.unbind requests l')))
                       = Line.joinable).
  { split; [|now rewrite (proj1 (proj2 (unbind_watch_state requests l')))].
    unfold Line.unbind. simpl. now rewrite Hexp, Hreq, Hh. }
  destruct Hunbind as [Hfatal Hjoin].
  split; [exact Hsent|]. split; [|split; [|split]].
  - unfold Line.Unwatch. now rewrite (StopWatchThread_idle l' Hw').
  - unfold Line.Unexport. rewrite (StopWatchThread_idle l' Hw').
    destruct (Line.unbind requests l') as [[fatal|] w]; exact Hjoin.
  - unfold Line.Watch. rewrite He'. cbv zeta. simpl.
    rewrite (StopWatchThread_idle l' Hw'), Hth'. reflexivity.
  - unfold Line.Destroy. rewrite (StopWatchThread_idle l' Hw').
    destruct (Line.unbind requests l') as [[fatal|] [requests1 l1]]; simpl in *;
      [discriminate|].
    now rewrite Hjoin.
Qed.

Lemma loop_stopped_by_itself_is_never_joined_witness :
  Line.is_exported watching_line = true
  /\ Forall caller_silent [quiet_round (Line.wait_throws "Input/output error")]
  /\ Line.watching_after
       (Line.WatchThread two_requests false
          [quiet_round (Line.wait_throws "Input/output error")] watching_line) = false
  /\ fst (Line.Watch [Function 2]
            (after_run
               (Line.WatchThread two_requests false
                  [quiet_round (Line.wait_throws "Input/output error")] watching_line)
               watching_line))
     = Abort StdTerminate.
Proof.
  assert (H1 : Line.is_exported watching_line = true) by reflexivity.
  assert (H2 : Forall caller_silent [quiet_round (Line.wait_throws "Input/output error")]).
  { repeat constructor. }
  assert (H3 : Line.watching_after
                 (Line.WatchThread two_requests false
                    [quiet_round (Line.wait_throws "Input/output error")] watching_line)
               = false) by reflexivity.
  split; [exact H1|]. split; [exact H2|]. split; [exact H3|].
  destruct (loop_stopped_by_itself_is_never_joined
              two_requests watching_line
              [quiet_round (Line.wait_throws "Input/output error")] [] 2 []
              H1 eq_refl eq_refl H2 H3) as (_ & _ & _ & H & _).
  exact H.
Defined.

Lemma undisturbed_loop rounds :
  forall sent,
    Forall undisturbed rounds ->
    Line.watch_loop rounds true sent
    = {| Line.delivered := sent ++ round_events rounds; Line.watching_after := true;
         Line.status := Line.blocked |}.
Proof.
  induction rounds as [|r rest IH]; intros sent Hu; simpl.
  - now rewrite app_nil_r.
  - inversion Hu as [|r' rest' (Hb & Hw & Hr & Ho) Hrest]; subst.
    rewrite Hb, Hw, Hr. simpl. unfold round_events. simpl.
    destruct (Line.outcome r) as [|ty|what|what]; try contradiction.
    + now apply IH.
    + rewrite (IH _ Hrest). unfold round_events. simpl. now rewrite <- app_assoc.
Qed.

Lemma round_events_values rounds :
  Forall (fun n => n = Line.event 0 \/ n = Line.event 1) (round_events rounds).
Proof.
  induction rounds as [|r rest IH]; unfold round_events; simpl; [constructor|].
  destruct (Line.outcome r) as [|ty|what|what]; simpl; try exact IH.
  constructor; [|exact IH]. destruct ty; simpl; auto.
Qed.

(** X19.  While the caller leaves the flag alone, at the loop condition,
    during the wait and between the wait and the next reading of the flag,
    and the device does not throw, the loop sends exactly one notification
    per edge event, in the order of the events, and none for a wait that
    timed out; the value sent is 1 for a rising edge and 0 for a falling
    edge; and the thread is still in the loop, the flag set.  When the
    caller clears the flag after an event has been read, that event is
    still sent and the thread returns at the loop condition without
    sending anything more. *)
Theorem undisturbed_loop_sends_the_events_in_order
  (requests : Line.Heap) (l : Line.t) (ref : nat) (h : LineRequest.t) (g : line_request)
  (rounds : list Line.Round) :
  Line.request_ l = Some ref ->
  Line.exported_ l = true ->
  requests ref = Some h ->
  LineRequest.GetRequest h = Some g ->
  Line.watching_ l = true ->
  Forall undisturbed rounds ->
  Line.WatchThread requests false rounds l
  = {| Line.delivered := round_events rounds; Line.watching_after := true;
       Line.status := Line.blocked |}
  /\ Forall (fun n => n = Line.event 0 \/ n = Line.event 1) (round_events rounds)
  /\ forall ty rest,
       Line.WatchThread requests false
         (rounds
          ++ {| Line.stop_before := false; Line.stop_in_wait := false;
                Line.stop_in_read := true; Line.outcome := Line.edge_event ty |} :: rest) l
       = {| Line.delivered := round_events rounds ++ [Line.event (Line.edge_value ty)];
            Line.watching_after := false; Line.status := Line.exited |}.
Proof.
  intros Hreq Hexp Hh Hg Hw Hu.
  assert (Hrun : Line.watch_loop rounds true []
                 = {| Line.delivered := round_events rounds; Line.watching_after := true;
                      Line.status := Line.blocked |}).
  { now rewrite (undisturbed_loop rounds [] Hu). }
  unfold Line.WatchThread. rewrite Hreq, Hexp, Hh, Hg, Hw.
  split; [exact Hrun|]. split; [apply round_events_values|].
  intros ty rest. rewrite watch_loop_app by now rewrite Hrun.
  rewrite Hrun. simpl. apply watch_loop_stopped.
Qed.

Lemma undisturbed_loop_sends_the_events_in_order_witness :
  Forall undisturbed
    [ quiet_round (Line.edge_event RISING_EDGE); quiet_round Line.timed_out;
      quiet_round (Line.edge_event FALLING_EDGE); quiet_round (Line.edge_event RISING_EDGE) ]
  /\ Line.delivered
       (Line.WatchThread two_requests false
          [ quiet_round (Line.edge_event RISING_EDGE); quiet_round Line.timed_out;
            quiet_round (Line.edge_event FALLING_EDGE);
            quiet_round (Line.edge_event RISING_EDGE) ] watching_line)
     = [Line.event 1; Line.event 0; Line.event 1].
Proof.
  assert (Hu : Forall undisturbed
                 [ quiet_round (Line.edge_event RISING_EDGE); quiet_round Line.timed_out;
                   quiet_round (Line.edge_event FALLING_EDGE);
                   quiet_round (Line.edge_event RISING_EDGE) ]).
  { repeat constructor. }
  split; [exact Hu|].
  destruct (undisturbed_loop_sends_the_events_in_order
              two_requests watching_line 7 input_handle
              (kernel_like_request [(3, input_settings)]) _
              eq_refl eq_refl eq_refl eq_refl eq_refl Hu) as [Hrun _].
  now rewrite Hrun.
Defined.

(** X20.  When the caller clears the flag before the loop condition is
    read, or while the thread is inside the wait, the thread makes no
    further call of the callback and returns, whatever the device does in
    that round (an event that became available or an exception included)
    and whatever rounds might follow. *)
Theorem cleared_flag_ends_the_loop_silently
  (requests : Line.Heap) (l : Line.t) (ref : nat) (h : LineRequest.t) (g : line_request)
  (pre : list Line.Round) (r : Line.Round) (rest : list Line.Round) :
  Line.request_ l = Some ref ->
  Line.exported_ l = true ->
  requests ref = Some h ->
  LineRequest.GetRequest h = Some g ->
  Line.status (Line.WatchThread requests false pre l) = Line.blocked ->
  Line.stop_before r = true \/ Line.stop_in_wait r = true ->
  Line.WatchThread requests false (pre ++ r :: rest) l
  = {| Line.delivered := Line.delivered (Line.WatchThread requests false pre l);
       Line.watching_after := false; Line.status := Line.exited |}.
Proof.
  intros Hreq Hexp Hh Hg Hblocked Hstop.
  unfold Line.WatchThread in *. rewrite Hreq, Hexp, Hh, Hg in *.
  rewrite (watch_loop_app pre (r :: rest) _ _ Hblocked). simpl.
  destruct (Line.stop_before r) eqn:Hb; simpl; [reflexivity|].
  destruct Hstop as [Hs|Hs]; [discriminate|]. rewrite Hs. simpl.
  destruct (Line.outcome r); apply watch_loop_stopped.
Qed.

Lemma cleared_flag_ends_the_loop_silently_witness :
  Line.status (Line.WatchThread two_requests false
                 [quiet_round (Line.edge_event RISING_EDGE)] watching_line) = Line.blocked
  /\ Line.WatchThread two_requests false
       ([quiet_round (Line.edge_event RISING_EDGE)]
        ++ {| Line.stop_before := false; Line.stop_in_wait := true;
              Line.stop_in_read := false;
              Line.outcome := Line.edge_event FALLING_EDGE |}
           :: [quiet_round (Line.edge_event RISING_EDGE)])
       watching_line
     = {| Line.delivered := [Line.event 1]; Line.watching_after := false;
          Line.status := Line.exited |}.
Proof.
  assert (Hb : Line.status (Line.WatchThread two_requests false
                              [quiet_round (Line.edge_event RISING_EDGE)] watching_line)
               = Line.blocked) by reflexivity.
  split; [exact Hb|].
  exact (cleared_flag_ends_the_loop_silently
           two_requests watching_line 7 input_handle
           (kernel_like_request [(3, input_settings)])
           [quiet_round (Line.edge_event RISING_EDGE)]
           {| Line.stop_before := false; Line.stop_in_wait := true;
              Line.stop_in_read := false; Line.outcome := Line.edge_event FALLING_EDGE |}
           [quiet_round (Line.edge_event RISING_EDGE)]
           eq_refl eq_refl eq_refl eq_refl Hb (or_intror eq_refl)).
Defined.

(** X21.  A line has no guard of its own against its request being
    released.  On an exported line [getValue] and [setValue] go through
    the bound [LineRequest] to its device request, so after [release()] on
    that [LineRequest] they dereference an empty pointer instead of
    throwing, and the background loop does the same at its first wait,
    unless the flag is cleared before.  After [unexport] both throw
    [Line is not exported] again. *)
Theorem released_request_behind_a_line
  (requests : Line.Heap) (l : Line.t) (ref : nat) (h : LineRequest.t) (v : Z)
  (info rest : list Value) (r : Line.Round) (rounds : list Line.Round) :
  Line.request_ l = Some ref ->
  Line.exported_ l = true ->
  requests ref = Some h ->
  LineRequest.GetRequest h = None ->
  Line.GetValue requests info l = Abort NullDereference
  /\ Line.SetValue requests (Number v :: rest) l = Abort NullDereference
  /\ Line.status (Line.WatchThread requests false (r :: rounds) l)
     = (if Line.watching_ l && negb (Line.stop_before r) then Line.crashed else Line.exited)
  /\ Line.GetValue (fst (snd (Line.Unexport info requests l))) info
       (snd (snd (Line.Unexport info requests l)))
     = Throw (Error "Line is not exported")
  /\ Line.SetValue (fst (snd (Line.Unexport info requests l))) (Number v :: rest)
       (snd (snd (Line.Unexport info requests l)))
     = Throw (Error "Line is not exported").
Proof.
  intros Hreq Hexp Hh Hnull.
  destruct (unbind_watch_state requests (Line.StopWatchThread l)) as (_ & _ & _ & He).
  assert (He' : Line.exported_ (snd (snd (Line.Unexport info requests l))) = false).
  { unfold Line.Unexport.
    now destruct (Line.unbind requests (Line.StopWatchThread l)) as [[fatal|] w]. }
  unfold Line.GetValue, Line.SetValue, Line.WatchThread.
  rewrite He', Hreq, Hexp, Hh, Hnull.
  repeat split.
  unfold Line.watch_loop_null.
  now destruct (Line.watching_ l && negb (Line.stop_before r)).
Qed.

Lemma released_request_behind_a_line_witness :
  Line.request_ watching_line = Some 7%nat
  /\ LineRequest.GetRequest (snd (LineRequest.Release [] input_handle)) = None
  /\ Line.GetValue (fun _ => Some (snd (LineRequest.Release [] input_handle))) []
       watching_line
     = Abort NullDereference.
Proof.
  assert (H1 : Line.request_ watching_line = Some 7%nat) by reflexivity.
  assert (H2 : LineRequest.GetRequest (snd (LineRequest.Release [] input_handle)) = None)
    by reflexivity.
  split; [exact H1|]. split; [exact H2|].
  exact (proj1 (released_request_behind_a_line
                  (fun _ => Some (snd (LineRequest.Release [] input_handle)))
                  watching_line 7 (snd (LineRequest.Release [] input_handle)) 1
                  [] [] (quiet_round Line.timed_out) [] H1 eq_refl eq_refl H2)).
Defined.

(** X22.  The constructor of [Line] yields a line only for a [Chip]
    object and a number; the line is then on that offset (reduced to 32
    bits), not exported, not watching and without a thread, so that
    [getValue] and [watch] throw [Line is not exported] until the first
    [export], and it is watching exactly when it owns a thread, with no
    thread started. *)
Theorem constructed_line_is_idle
  (requests : Line.Heap) (info : list Value) (l : Line.t) (callback : nat) :
  Line.New info = Return l ->
  (exists chip_ref z rest,
     info = Object ChipClass chip_ref :: Number z :: rest
     /\ Line.chip_ l = chip_ref /\ Line.offset_ l = Uint32Value z)
  /\ Line.is_exported l = false
  /\ thread_invariant l
  /\ Line.GetValue requests [] l = Throw (Error "Line is not exported")
  /\ Line.Watch [Function callback] l = (Throw (Error "Line is not exported"), l).
Proof.
  unfold Line.New.
  destruct info as [|chipObj [|[] rest]]; try discriminate.
  destruct (IsObject chipObj); simpl; [|discriminate].
  destruct chipObj as [| | | | | | |cls chip_ref|]; try discriminate.
  destruct cls; try discriminate.
  intros [= <-]. split; [|split; [|split; [|split]]]; try reflexivity.
  - now exists chip_ref, z, rest.
  - apply idle_invariant; reflexivity.
Qed.

Lemma constructed_line_is_idle_witness :
  Line.New [Object ChipClass 0; Number 4] = Return idle_line
  /\ Line.Watch [Function 1] idle_line = (Throw (Error "Line is not exported"), idle_line).
Proof.
  assert (H : Line.New [Object ChipClass 0; Number 4] = Return idle_line) by reflexivity.
  split; [exact H|].
  destruct (constructed_line_is_idle two_requests _ idle_line 1 H)
    as (_ & _ & _ & _ & Hw).
  exact Hw.
Defined.


